(** * Cyber Shield AI: the classify-then-answer pipeline of [src/App.tsx]

    The development embeds [getGeminiResponse], [handleSubmit] and the
    other event handlers of [src/App.tsx].  An [async] function is a finite
    tree of effects
    ([Async]): awaiting [model.generateContent], writing to the console,
    a React state update.  Such a tree is run against an arbitrary remote
    service, which records every request it receives.  A session is a
    sequence of events, each handled on the page the last one left. *)

From Stdlib Require Import String Ascii List Bool ZArith Lia.
Import ListNotations.
Local Open Scope string_scope.

(** ** JavaScript strings *)

(** A string is the sequence of bytes of its UTF-8 text. *)
Module JsString.

Definition ofCodes (codes : list nat) : string :=
  fold_right (fun c s => String (ascii_of_nat c) s) EmptyString codes.

(** The character [U+0022], which closes a literal when written inside it. *)
Definition dquote : string := ofCodes [34].

Definition isUpperAscii (c : ascii) : bool :=
  let n := nat_of_ascii c in (65 <=? n)%nat && (n <=? 90)%nat.

Definition lowerChar (c : ascii) : ascii :=
  if isUpperAscii c then ascii_of_nat (nat_of_ascii c + 32) else c.

(** [String.prototype.toLowerCase].  The letters [A]..[Z] move to
    [a]..[z]; every other byte is kept.  The case mappings of Unicode
    outside ASCII are not modelled: none of them yields or removes one of
    the letters [t], [r], [u], [e], the only ones line 26 looks for. *)
Fixpoint toLowerCase (s : string) : string :=
  match s with
  | EmptyString => EmptyString
  | String c s' => String (lowerChar c) (toLowerCase s')
  end.

(** [s.startsWith(p)]. *)
Fixpoint startsWith (p s : string) : bool :=
  match p, s with
  | EmptyString, _ => true
  | String _ _, EmptyString => false
  | String a p', String b s' => Ascii.eqb a b && startsWith p' s'
  end.

(** [s.includes(needle)]: [needle] starts at some position of [s]. *)
Fixpoint includes (s needle : string) : bool :=
  startsWith needle s ||
  match s with
  | EmptyString => false
  | String _ s' => includes s' needle
  end.

(** [dropPrefix p s] is the rest of [s] after its prefix [p]. *)
Fixpoint dropPrefix (p s : string) : option string :=
  match p, s with
  | EmptyString, _ => Some s
  | String _ _, EmptyString => None
  | String a p', String b s' =>
      if Ascii.eqb a b then dropPrefix p' s' else None
  end.

Definition rev (s : string) : string :=
  string_of_list_ascii (List.rev (list_ascii_of_string s)).

(** The code points ECMAScript calls WhiteSpace or LineTerminator, in
    UTF-8: TAB, LF, VT, FF, CR, SP, U+00A0, U+1680, U+2000..U+200A,
    U+2028, U+2029, U+202F, U+205F, U+3000, U+FEFF. *)
Definition whiteSpace : list string :=
  map ofCodes
    [ [9]; [10]; [11]; [12]; [13]; [32]; [194; 160]; [225; 154; 128];
      [226; 128; 128]; [226; 128; 129]; [226; 128; 130]; [226; 128; 131];
      [226; 128; 132]; [226; 128; 133]; [226; 128; 134]; [226; 128; 135];
      [226; 128; 136]; [226; 128; 137]; [226; 128; 138];
      [226; 128; 168]; [226; 128; 169]; [226; 128; 175];
      [226; 129; 159]; [227; 128; 128]; [239; 187; 191] ].

(** Removes one leading member of [ws], when there is one. *)
Fixpoint stripOne (ws : list string) (s : string) : option string :=
  match ws with
  | [] => None
  | w :: ws' =>
      match dropPrefix w s with
      | Some rest => Some rest
      | None => stripOne ws' s
      end
  end.

(** Removes leading members of [ws] for as long as there are any; every
    removal shortens the string, so [String.length s] rounds are enough. *)
Fixpoint stripAll (rounds : nat) (ws : list string) (s : string) : string :=
  match rounds with
  | O => s
  | S n =>
      match stripOne ws s with
      | Some rest => stripAll n ws rest
      | None => s
      end
  end.

Definition trimStart (s : string) : string :=
  stripAll (String.length s) whiteSpace s.

Definition trimEnd (s : string) : string :=
  rev (stripAll (String.length s) (map rev whiteSpace) (rev s)).

(** [String.prototype.trim]. *)
Definition trim (s : string) : string := trimEnd (trimStart s).

(** A string is falsy exactly when it is empty. *)
Definition truthy (s : string) : bool :=
  match s with EmptyString => false | String _ _ => true end.

(** [contains s needle]: [needle] occurs in [s] as a substring. *)
Definition contains (s needle : string) : Prop :=
  exists pre post, s = pre ++ needle ++ post.

End JsString.
Import JsString.

(** ** The data of the component *)

Inductive AttachmentType := image | file.

(** [Message['attachment']] (lines 8-12). *)
Record Attachment := {
  att_type : AttachmentType;
  att_name : string;
  att_url : string
}.

Inductive Sender := user | bot.

(** [interface Message] (lines 5-14); an absent optional field is [None]. *)
Record Message := {
  msg_type : Sender;
  msg_content : string;
  msg_attachment : option Attachment;
  msg_timestamp : option Z
}.

(** An entry of [searchHistory] (line 50). *)
Record HistoryItem := {
  question : string;
  timestamp : Z
}.

(** The state of [App] (lines 44-50).  [fileInputRef] is the [value] of the
    hidden file input, [None] while the ref is not attached. *)
Record AppState := {
  input : string;
  messages : list Message;
  isLoading : bool;
  attachment : option Attachment;
  isSidebarOpen : bool;
  fileInputRef : option string;
  searchHistory : list HistoryItem
}.

Definition setInput (v : string) (s : AppState) : AppState :=
  {| input := v; messages := messages s; isLoading := isLoading s;
     attachment := attachment s; isSidebarOpen := isSidebarOpen s;
     fileInputRef := fileInputRef s; searchHistory := searchHistory s |}.

Definition setMessages (f : list Message -> list Message) (s : AppState)
  : AppState :=
  {| input := input s; messages := f (messages s); isLoading := isLoading s;
     attachment := attachment s; isSidebarOpen := isSidebarOpen s;
     fileInputRef := fileInputRef s; searchHistory := searchHistory s |}.

Definition setIsLoading (v : bool) (s : AppState) : AppState :=
  {| input := input s; messages := messages s; isLoading := v;
     attachment := attachment s; isSidebarOpen := isSidebarOpen s;
     fileInputRef := fileInputRef s; searchHistory := searchHistory s |}.

Definition setAttachment (v : option Attachment) (s : AppState) : AppState :=
  {| input := input s; messages := messages s; isLoading := isLoading s;
     attachment := v; isSidebarOpen := isSidebarOpen s;
     fileInputRef := fileInputRef s; searchHistory := searchHistory s |}.

Definition setSearchHistory (f : list HistoryItem -> list HistoryItem)
  (s : AppState) : AppState :=
  {| input := input s; messages := messages s; isLoading := isLoading s;
     attachment := attachment s; isSidebarOpen := isSidebarOpen s;
     fileInputRef := fileInputRef s; searchHistory := f (searchHistory s) |}.

(** [if (fileInputRef.current) fileInputRef.current.value = ''] *)
Definition clearFileInput (s : AppState) : AppState :=
  {| input := input s; messages := messages s; isLoading := isLoading s;
     attachment := attachment s; isSidebarOpen := isSidebarOpen s;
     fileInputRef :=
       match fileInputRef s with
       | Some _ => Some EmptyString
       | None => None
       end;
     searchHistory := searchHistory s |}.

(** ** The remote service *)

(** A thrown JavaScript value; both [catch] clauses treat it as opaque. *)
Definition JsError := string.

(** What one [generateContent] call is given: the model it was created for
    (line 21) and the prompt. *)
Record Request := {
  req_model : string;
  req_prompt : string
}.

(** A fulfilled [generateContent]: [response.text()] returns the text or
    throws (the SDK does so for a blocked or malformed candidate). *)
Record GenerateContentResult := {
  response_text : JsError + string
}.

(** The promise of [generateContent], settled: rejected or fulfilled. *)
Definition Reply : Type := JsError + GenerateContentResult.

(** A remote service with internal state [S]: it may answer a request from
    everything it has seen before. *)
Definition Service (S : Type) : Type := Request -> S -> Reply * S.

(** ** Asynchronous functions *)

Inductive Async (A : Type) : Type :=
| Resolve (a : A)
| Throw (e : JsError)
| Generate (req : Request) (k : Reply -> Async A)
| ConsoleError (args : list string) (k : Async A)
| SetState (f : AppState -> AppState) (k : Async A).

Arguments Resolve {A} a.
Arguments Throw {A} e.
Arguments Generate {A} req k.
Arguments ConsoleError {A} args k.
Arguments SetState {A} f k.

Fixpoint bind {A B : Type} (m : Async A) (f : A -> Async B) : Async B :=
  match m with
  | Resolve a => f a
  | Throw e => Throw e
  | Generate req k => Generate req (fun r => bind (k r) f)
  | ConsoleError args k => ConsoleError args (bind k f)
  | SetState g k => SetState g (bind k f)
  end.

(** [try { m } catch (e) { h e }] *)
Fixpoint try_catch {A : Type} (m : Async A) (h : JsError -> Async A)
  : Async A :=
  match m with
  | Resolve a => Resolve a
  | Throw e => h e
  | Generate req k => Generate req (fun r => try_catch (k r) h)
  | ConsoleError args k => ConsoleError args (try_catch k h)
  | SetState g k => SetState g (try_catch k h)
  end.

(** [try { m } finally { f }] *)
Fixpoint try_finally {A : Type} (m : Async A) (f : Async unit) : Async A :=
  match m with
  | Resolve a => bind f (fun _ => Resolve a)
  | Throw e => bind f (fun _ => Throw e)
  | Generate req k => Generate req (fun r => try_finally (k r) f)
  | ConsoleError args k => ConsoleError args (try_finally k f)
  | SetState g k => SetState g (try_finally k f)
  end.

Declare Scope async_scope.
Delimit Scope async_scope with async.
Notation "x <- m ;; k" := (bind m (fun x => k))
  (at level 61, m at next level, right associativity) : async_scope.
Notation "m ;; k" := (bind m (fun _ => k))
  (at level 61, right associativity) : async_scope.

(** [await model.generateContent(prompt)]: a rejection is thrown at the
    [await]. *)
Definition generateContent (model prompt : string)
  : Async GenerateContentResult :=
  Generate {| req_model := model; req_prompt := prompt |}
    (fun r => match r with inl e => Throw e | inr res => Resolve res end).

(** [result.response.text()] *)
Definition text (res : GenerateContentResult) : Async string :=
  match response_text res with
  | inl e => Throw e
  | inr t => Resolve t
  end.

Definition console_error (args : list string) : Async unit :=
  ConsoleError args (Resolve tt).

Definition update (f : AppState -> AppState) : Async unit :=
  SetState f (Resolve tt).

(** ** Running a function against a service *)

(** How a promise settles. *)
Inductive Settled (A : Type) : Type :=
| Fulfilled (a : A)
| Rejected (e : JsError).

Arguments Fulfilled {A} a.
Arguments Rejected {A} e.

(** Everything a run can touch: the service, the component's state, the
    requests sent so far (oldest first) and the console. *)
Record World (S : Type) := {
  remote : S;
  app : AppState;
  calls : list Request;
  console : list (list string)
}.

Arguments remote {S} w.
Arguments app {S} w.
Arguments calls {S} w.
Arguments console {S} w.

Fixpoint run {S A : Type} (svc : Service S) (m : Async A) (w : World S)
  : Settled A * World S :=
  match m with
  | Resolve a => (Fulfilled a, w)
  | Throw e => (Rejected e, w)
  | Generate req k =>
      let (r, s') := svc req (remote w) in
      run svc (k r)
        {| remote := s'; app := app w;
           calls := calls w ++ [req]; console := console w |}
  | ConsoleError args k =>
      run svc k
        {| remote := remote w; app := app w;
           calls := calls w; console := console w ++ [args] |}
  | SetState f k =>
      run svc k
        {| remote := remote w; app := f (app w);
           calls := calls w; console := console w |}
  end.

(** ** [getGeminiResponse] (lines 19-41) *)

Local Open Scope async_scope.

(** [genAI.getGenerativeModel({ model: "gemini-1.5-flash" })] (line 21). *)
Definition model : string := "gemini-1.5-flash".

(** The template literal of line 24. *)
Definition categoryCheckPrompt (question : string) : string :=
  "Determine if this question is related to cybersecurity. Only respond with "
  ++ dquote ++ "true" ++ dquote ++ " if it's cybersecurity-related, or "
  ++ dquote ++ "false" ++ dquote ++ " if it's not: "
  ++ dquote ++ question ++ dquote.

(** The template literal of line 33. *)
Definition prompt (question : string) : string :=
  "You are a cybersecurity expert AI assistant. Please provide a detailed, professional response to this cybersecurity question: "
  ++ question.

(** The string returned at line 29. *)
Definition offTopicRefusal : string :=
  "I apologize, but I can only assist with cybersecurity-related questions. Please feel free to ask any questions about cybersecurity, and I'll be happy to help.".

(** The string returned at line 39. *)
Definition technicalDifficulties : string :=
  "I apologize, but I'm currently experiencing technical difficulties. Please try again later.".

(** The right-hand side of line 26, as a function of the text that
    [categoryCheck.response.text()] returned. *)
Definition isCyberSecurityRelated (responseText : string) : bool :=
  includes (toLowerCase responseText) "true".

Definition getGeminiResponse (question : string) : Async string :=
  try_catch
    (categoryCheck <- generateContent model (categoryCheckPrompt question) ;;
     checkText <- text categoryCheck ;;
     if negb (isCyberSecurityRelated checkText)
     then Resolve offTopicRefusal
     else
       (result <- generateContent model (prompt question) ;;
        text result))
    (fun _ =>
       console_error ["Error getting Gemini response:"] ;;
       Resolve technicalDifficulties).

(** ** [handleSubmit] (lines 128-170) *)

(** The content of the message built in the [catch] clause (line 162). *)
Definition submitErrorContent : string :=
  "I apologize, but I encountered an error processing your request. Please try again.".

(** The guard of line 130, on the values the handler closed over. *)
Definition submitBlocked (render : AppState) : bool :=
  (negb (truthy (trim (input render)))
   && match attachment render with Some _ => false | None => true end)
  || isLoading render.

(** The message of lines 133-138. *)
Definition userMessage (render : AppState) (now : Z) : Message :=
  {| msg_type := user; msg_content := input render;
     msg_attachment := attachment render; msg_timestamp := Some now |}.

(** The message of lines 153-157. *)
Definition botResponse (response : string) (later : Z) : Message :=
  {| msg_type := bot; msg_content := response;
     msg_attachment := None; msg_timestamp := Some later |}.

(** The message of lines 160-164. *)
Definition errorMessage (later : Z) : Message :=
  {| msg_type := bot; msg_content := submitErrorContent;
     msg_attachment := None; msg_timestamp := Some later |}.

(** [render] is the state the component was last rendered with: the handler
    reads [input], [attachment] and [isLoading] from it.  [now] and [later]
    are what [Date.now()] returns at line 132 and at line 156 or 163.
    [e.preventDefault()] acts on the event alone and is left out. *)
Definition handleSubmit (render : AppState) (now later : Z) : Async unit :=
  if submitBlocked render then Resolve tt
  else
    update (setMessages (fun prev => (prev ++ [userMessage render now])%list)) ;;
    update (setSearchHistory (fun prev =>
      {| question := input render; timestamp := now |} :: prev)) ;;
    update (setInput EmptyString) ;;
    update (setAttachment None) ;;
    update clearFileInput ;;
    update (setIsLoading true) ;;
    try_finally
      (try_catch
         (response <- getGeminiResponse (input render) ;;
          update (setMessages (fun prev =>
            (prev ++ [botResponse response later])%list)))
         (fun error =>
            update (setMessages (fun prev =>
              (prev ++ [errorMessage later])%list)) ;;
            console_error ["Error getting Gemini response:"; error]))
      (update (setIsLoading false)).

(** The component's state once lines 139-149 have run. *)
Definition beforeRequest (render : AppState) (now : Z) (a : AppState)
  : AppState :=
  setIsLoading true
    (clearFileInput
       (setAttachment None
          (setInput EmptyString
             (setSearchHistory
                (fun prev =>
                   {| question := input render; timestamp := now |} :: prev)
                (setMessages
                   (fun prev => (prev ++ [userMessage render now])%list)
                   a))))).

(** The component's state once the answer has been appended and the
    [finally] clause has run. *)
Definition afterResponse (response : string) (later : Z) (a : AppState)
  : AppState :=
  setIsLoading false
    (setMessages (fun prev => (prev ++ [botResponse response later])%list) a).

(** ** What a run is observed by *)

(** The answer a run of [getGeminiResponse] settles with. *)
Definition answer {S : Type} (svc : Service S) (q : string) (w : World S)
  : Settled string :=
  fst (run svc (getGeminiResponse q) w).

(** The world after a run of [getGeminiResponse]. *)
Definition after {S : Type} (svc : Service S) (q : string) (w : World S)
  : World S :=
  snd (run svc (getGeminiResponse q) w).



(** The two requests a question can give rise to. *)
Definition classifyRequest (q : string) : Request :=
  {| req_model := model; req_prompt := categoryCheckPrompt q |}.

Definition answerRequest (q : string) : Request :=
  {| req_model := model; req_prompt := prompt q |}.

(** The text a reply carries, when the call was fulfilled and
    [response.text()] returned. *)
Definition replyText (r : Reply) : option string :=
  match r with
  | inl _ => None
  | inr res =>
      match response_text res with
      | inl _ => None
      | inr t => Some t
      end
  end.

(** The call raised an error: the promise was rejected or [text()] threw. *)
Definition failed (r : Reply) : bool :=
  match replyText r with Some _ => false | None => true end.

(** The classification reply sends the question on to the generator. *)
Definition inDomain (r : Reply) : bool :=
  match replyText r with
  | Some t => isCyberSecurityRelated t
  | None => false
  end.

(** The answer as the specification describes it, from the replies to the
    classification prompt and to the generation prompt alone. *)
Definition answerOf (first second : Reply) : string :=
  match replyText first with
  | None => technicalDifficulties
  | Some t =>
      if isCyberSecurityRelated t then
        match replyText second with
        | Some a => a
        | None => technicalDifficulties
        end
      else offTopicRefusal
  end.

(** The reply to the classification request and the state it leaves the
    service in. *)
Definition firstReply {S : Type} (svc : Service S) (q : string)
  (w : World S) : Reply :=
  fst (svc (classifyRequest q) (remote w)).

Definition firstState {S : Type} (svc : Service S) (q : string)
  (w : World S) : S :=
  snd (svc (classifyRequest q) (remote w)).

(** The reply the generation request gets in that state. *)
Definition secondReply {S : Type} (svc : Service S) (q : string)
  (w : World S) : Reply :=
  fst (svc (answerRequest q) (firstState svc q w)).

Definition secondState {S : Type} (svc : Service S) (q : string)
  (w : World S) : S :=
  snd (svc (answerRequest q) (firstState svc q w)).

(** What the [catch] clause of line 38 writes to the console. *)
Definition diagnostic : list string := ["Error getting Gemini response:"].

(** A service whose reply to a request is the same in every state. *)
Definition deterministic {S : Type} (svc : Service S) : Prop :=
  forall req s s', fst (svc req s) = fst (svc req s').

(** ** The other handlers of [App] (lines 62-116, 179, 238, 349) *)

Definition setIsSidebarOpen (v : bool) (s : AppState) : AppState :=
  {| input := input s; messages := messages s; isLoading := isLoading s;
     attachment := attachment s; isSidebarOpen := v;
     fileInputRef := fileInputRef s; searchHistory := searchHistory s |}.

(** What [handleFileChange] reads of the chosen [File]: its name and its
    MIME type. *)
Record File := {
  file_name : string;
  file_type : string
}.

(** The component's state beside the object URLs the document holds.
    [URL.createObjectURL] registers the URL it returns and
    [URL.revokeObjectURL] drops it. *)
Record Page := {
  view : AppState;
  objectURLs : list string
}.

Definition revokeObjectURL (url : string) (live : list string)
  : list string :=
  List.remove string_dec url live.

(** [handleFileChange] (lines 79-91).  [chosen] is [e.target.files?.[0]]
    and [url] is what [URL.createObjectURL(file)] returns. *)
Definition handleFileChange (chosen : option File) (url : string) (p : Page)
  : Page :=
  match chosen with
  | None => p
  | Some f =>
      let isImage := startsWith "image/" (file_type f) in
      {| view :=
           setAttachment
             (Some {| att_type := if isImage then image else file;
                      att_name := file_name f;
                      att_url := url |})
             (view p);
         objectURLs := url :: objectURLs p |}
  end.

(** [handleRemoveAttachment] (lines 93-101); the handler reads
    [attachment] from the state it was rendered with, here the page's. *)
Definition handleRemoveAttachment (p : Page) : Page :=
  {| view := clearFileInput (setAttachment None (view p));
     objectURLs :=
       match attachment (view p) with
       | Some a =>
           if truthy (att_url a)
           then revokeObjectURL (att_url a) (objectURLs p)
           else objectURLs p
       | None => objectURLs p
       end |}.

(** [handleHistoryClick] (lines 103-106). *)
Definition handleHistoryClick (q : string) (s : AppState) : AppState :=
  setIsSidebarOpen false (setInput q s).

(** [handleNewChat] (lines 108-116). *)
Definition handleNewChat (s : AppState) : AppState :=
  setIsSidebarOpen false
    (clearFileInput
       (setAttachment None
          (setInput EmptyString (setMessages (fun _ => []) s)))).

(** [handleClickOutside] (lines 64-73).  The sidebar and the menu button
    are rendered unconditionally, so both [getElementById] calls find
    their element; [inSidebar] and [inMenuButton] are the two [contains]
    tests on the event's target. *)
Definition handleClickOutside (inSidebar inMenuButton : bool)
  (s : AppState) : AppState :=
  if negb inSidebar && negb inMenuButton
  then setIsSidebarOpen false s
  else s.

(** ** Sessions *)

(** What the user can do to the page. *)
Inductive Event :=
| Typed (value : string)
| FileChanged (chosen : option File) (url : string)
| RemoveAttachmentClicked
| HistoryClicked (index : nat)
| NewChatClicked
| MenuClicked
| OverlayClicked
| MouseDown (inSidebar inMenuButton : bool)
| Submitted (now later : Z).

(** A browser tab: the world of the component and the object URLs. *)
Record Tab (S : Type) := {
  world : World S;
  registry : list string
}.

Arguments world {S} t.
Arguments registry {S} t.

Definition withApp {S : Type} (a : AppState) (w : World S) : World S :=
  {| remote := remote w; app := a; calls := calls w; console := console w |}.

Definition onView {S : Type} (f : AppState -> AppState) (t : Tab S) : Tab S :=
  {| world := withApp (f (app (world t))) (world t);
     registry := registry t |}.

Definition onPage {S : Type} (f : Page -> Page) (t : Tab S) : Tab S :=
  let p := f {| view := app (world t); objectURLs := registry t |} in
  {| world := withApp (view p) (world t); registry := objectURLs p |}.

(** One event, handled to the end by the handler of the current render: a
    submission closes over the page as it is and runs until its answer is
    on the page.  The history buttons are the entries of [searchHistory]
    (lines 220-229), so a click names one by its position. *)
Definition step {S : Type} (svc : Service S) (e : Event) (t : Tab S)
  : Tab S :=
  match e with
  | Typed value => onView (setInput value) t
  | FileChanged chosen url => onPage (handleFileChange chosen url) t
  | RemoveAttachmentClicked => onPage handleRemoveAttachment t
  | HistoryClicked index =>
      onView (fun a =>
                match nth_error (searchHistory a) index with
                | Some item => handleHistoryClick (question item) a
                | None => a
                end) t
  | NewChatClicked => onView handleNewChat t
  | MenuClicked =>
      onView (fun a => setIsSidebarOpen (negb (isSidebarOpen a)) a) t
  | OverlayClicked => onView (setIsSidebarOpen false) t
  | MouseDown inSidebar inMenuButton =>
      onView (handleClickOutside inSidebar inMenuButton) t
  | Submitted now later =>
      {| world :=
           snd (run svc (handleSubmit (app (world t)) now later) (world t));
         registry := registry t |}
  end.

(** [URL.createObjectURL] never returns a URL that is still registered. *)
Definition allowed {S : Type} (e : Event) (t : Tab S) : Prop :=
  match e with
  | FileChanged (Some _) url => ~ In url (registry t)
  | _ => True
  end.

(** The tabs a session can lead to. *)
Inductive reach {S : Type} (svc : Service S) (t0 : Tab S) : Tab S -> Prop :=
| reach_start : reach svc t0 t0
| reach_step (t : Tab S) (e : Event) :
    reach svc t0 t -> allowed e t -> reach svc t0 (step svc e t).

(** The object URLs the messages show. *)
Definition attachmentURLs (ms : list Message) : list string :=
  flat_map (fun m =>
              match msg_attachment m with
              | Some a => [att_url a]
              | None => []
              end) ms.

(** ** What sessions keep *)

(** Every object URL the messages show is registered. *)
Definition shownRegistered {S : Type} (t : Tab S) : Prop :=
  incl (attachmentURLs (messages (app (world t)))) (registry t).

(** The pending attachment's URL is registered and no message shows it. *)
Definition pendingRegistered {S : Type} (t : Tab S) : Prop :=
  forall a, attachment (app (world t)) = Some a ->
    In (att_url a) (registry t)
    /\ ~ In (att_url a) (attachmentURLs (messages (app (world t)))).

(** Every message of the user is in the search history, with its time. *)
Definition recorded (a : AppState) : Prop :=
  forall m, In m (messages a) -> msg_type m = user ->
    exists t,
      msg_timestamp m = Some t
      /\ In {| question := msg_content m; timestamp := t |}
           (searchHistory a).

(** The messages are questions, each followed by its answer. *)
Definition paired (ms : list Message) : Prop :=
  exists exchanges : list (Message * Message),
    ms = flat_map (fun p => [fst p; snd p]) exchanges
    /\ Forall (fun p => msg_type (fst p) = user /\ msg_type (snd p) = bot)
         exchanges.

(** ** Sessions with requests in flight *)

(** The [try] statement of [handleSubmit] (lines 151-169), which the handler
    reaches once lines 132-149 have run. *)
Definition awaitAnswer (q : string) (later : Z) : Async unit :=
  try_finally
    (try_catch
       (response <- getGeminiResponse q ;;
        update (setMessages (fun prev =>
          (prev ++ [botResponse response later])%list)))
       (fun error =>
          update (setMessages (fun prev =>
            (prev ++ [errorMessage later])%list)) ;;
          console_error ["Error getting Gemini response:"; error]))
    (update (setIsLoading false)).

(** A tab together with the calls that were sent and have not settled yet,
    each with what the function awaiting it does with the reply. *)
Record Live (S : Type) := {
  tab : Tab S;
  pending : list (Request * (Reply -> Async unit))
}.

Arguments tab {S} l.
Arguments pending {S} l.

Definition withWorld {S : Type} (w : World S) (l : Live S) : Live S :=
  {| tab := {| world := w; registry := registry (tab l) |};
     pending := pending l |}.

(** Runs a function up to its next [await], or to its end; a rejection
    nothing catches ends it.  A call that is awaited is recorded as sent and
    joins the pending ones. *)
Fixpoint advance {S : Type} (m : Async unit) (l : Live S) : Live S :=
  match m with
  | Resolve _ => l
  | Throw _ => l
  | Generate req k =>
      let w := world (tab l) in
      {| tab :=
           {| world :=
                {| remote := remote w; app := app w;
                   calls := calls w ++ [req]; console := console w |};
              registry := registry (tab l) |};
         pending := pending l ++ [(req, k)] |}
  | ConsoleError args k =>
      let w := world (tab l) in
      advance k
        (withWorld
           {| remote := remote w; app := app w;
              calls := calls w; console := console w ++ [args] |} l)
  | SetState f k =>
      advance k (withWorld (withApp (f (app (world (tab l)))) (world (tab l))) l)
  end.

(** What happens to a live tab: the user does something, or the pending
    call at some position settles. *)
Inductive LiveEvent :=
| User (e : Event)
| CallSettled (index : nat).

Definition without {A : Type} (index : nat) (l : list A) : list A :=
  firstn index l ++ skipn (Datatypes.S index) l.

(** One event of a live tab.  A submission runs up to its first [await] and
    the other events are free to come before its calls settle; the controls
    the page disables while loading are not held back here, so the live
    tabs include every page the user can see.  When a call settles the
    service answers it and the function awaiting it goes on. *)
Definition liveStep {S : Type} (svc : Service S) (ev : LiveEvent)
  (l : Live S) : Live S :=
  match ev with
  | User (Submitted now later) =>
      advance (handleSubmit (app (world (tab l))) now later) l
  | User e => {| tab := step svc e (tab l); pending := pending l |}
  | CallSettled index =>
      match nth_error (pending l) index with
      | None => l
      | Some (req, k) =>
          let w := world (tab l) in
          let (r, s') := svc req (remote w) in
          advance (k r)
            {| tab :=
                 {| world :=
                      {| remote := s'; app := app w;
                         calls := calls w; console := console w |};
                    registry := registry (tab l) |};
               pending := without index (pending l) |}
      end
  end.

Definition liveAllowed {S : Type} (ev : LiveEvent) (l : Live S) : Prop :=
  match ev with
  | User e => allowed e (tab l)
  | CallSettled _ => True
  end.

(** The live tabs a session can lead to. *)
Inductive liveReach {S : Type} (svc : Service S) (l0 : Live S)
  : Live S -> Prop :=
| liveReach_start : liveReach svc l0 l0
| liveReach_step (l : Live S) (ev : LiveEvent) :
    liveReach svc l0 l -> liveAllowed ev l ->
    liveReach svc l0 (liveStep svc ev l).

(** Every state update a function can make, on any path, satisfies [P]. *)
Fixpoint everyUpdate {A : Type} (P : (AppState -> AppState) -> Prop)
  (m : Async A) : Prop :=
  match m with
  | Resolve _ => True
  | Throw _ => True
  | Generate _ k => forall r, everyUpdate P (k r)
  | ConsoleError _ k => everyUpdate P k
  | SetState f k => P f /\ everyUpdate P k
  end.

(** [f] keeps a property of the page and the registry. *)
Definition keeps (J : AppState -> list string -> Prop)
  (f : AppState -> AppState) : Prop :=
  forall a reg, J a reg -> J (f a) reg.

(** [J] holds of the tab and no pending function can break it. *)
Definition holds {S : Type} (J : AppState -> list string -> Prop)
  (l : Live S) : Prop :=
  J (app (world (tab l))) (registry (tab l))
  /\ Forall (fun p => forall r, everyUpdate (keeps J) (snd p r)) (pending l).

(** The properties of the page and the registry that sessions keep. *)
Definition urlsRegistered (a : AppState) (reg : list string) : Prop :=
  incl (attachmentURLs (messages a)) reg
  /\ forall att, attachment a = Some att ->
       In (att_url att) reg
       /\ ~ In (att_url att) (attachmentURLs (messages a)).

Definition urlKept (u : string) (a : AppState) (reg : list string) : Prop :=
  In u reg /\ forall att, attachment a = Some att -> att_url att <> u.


(** ** Handlers that run while a call is pending *)

(** [runDuring] is [run] with the event loop made visible: while the n-th
    call of the run is awaited, the n-th member of [during] is applied to
    the component's state, standing for the handlers that ran meanwhile
    (none when the list is used up). *)
Fixpoint runDuring {S A : Type} (svc : Service S)
  (during : list (AppState -> AppState)) (m : Async A) (w : World S)
  : Settled A * World S :=
  match m with
  | Resolve a => (Fulfilled a, w)
  | Throw e => (Rejected e, w)
  | Generate req k =>
      let (r, s') := svc req (remote w) in
      runDuring svc (tl during) (k r)
        {| remote := s'; app := hd (fun a => a) during (app w);
           calls := calls w ++ [req]; console := console w |}
  | ConsoleError args k =>
      runDuring svc during k
        {| remote := remote w; app := app w;
           calls := calls w; console := console w ++ [args] |}
  | SetState f k =>
      runDuring svc during k
        {| remote := remote w; app := f (app w);
           calls := calls w; console := console w |}
  end.

(** ** White space *)

(** The members of a list, one after the other. *)
Definition joined (ts : list string) : string :=
  fold_right String.append EmptyString ts.

(** The strings made of white-space characters alone. *)
Definition blank (s : string) : Prop :=
  exists ts, Forall (fun t => In t whiteSpace) ts /\ s = joined ts.

(** ** Stub services for the examples *)

Definition fulfilled (t : string) : Reply :=
  inr {| response_text := inr t |}.

(** A stateless stub: the classifier's reply to every category prompt and
    the generator's reply to every other prompt. *)
Definition stub (classifier generator : Reply) : Service unit :=
  fun req _ =>
    (if startsWith "Determine" (req_prompt req) then classifier else generator,
     tt).

Definition emptyApp : AppState :=
  {| input := EmptyString; messages := []; isLoading := false;
     attachment := None; isSidebarOpen := false;
     fileInputRef := Some EmptyString; searchHistory := [] |}.

Definition freshWorld {S : Type} (s : S) (a : AppState) : World S :=
  {| remote := s; app := a; calls := []; console := [] |}.

(** Questions, services and states the examples run on. *)
Definition firewallQuestion : string :=
  "How do I set up a firewall rule to block inbound SSH?".

Definition pizzaQuestion : string := "What's the best pizza topping?".

Definition vpnQuestion : string := "What is a VPN?".

Definition expertStub : Service unit :=
  stub (fulfilled "True.") (fulfilled "Step 1: ...").

Definition refusingStub : Service unit :=
  stub (fulfilled "false") (fulfilled "Step 1: ...").

Definition offlineStub : Service unit :=
  stub (inl "network error") (fulfilled "Step 1: ...").

Definition blockedStub : Service unit :=
  stub (fulfilled "true") (inr {| response_text := inl "blocked" |}).

Definition reportFile : Attachment :=
  {| att_type := file; att_name := "report.pdf"; att_url := "blob:report" |}.

(** The form holding a question, holding nothing, holding blanks and a
    file, and holding a question while a request is in flight. *)
Definition askingVpn : AppState := setInput vpnQuestion emptyApp.

Definition blankForm : AppState := setInput "   " emptyApp.

Definition blankWithFile : AppState :=
  setAttachment (Some reportFile) (setInput "   " emptyApp).

Definition busyForm : AppState := setIsLoading true askingVpn.

(** Files, pages and tabs the examples run on. *)
Definition photo : File :=
  {| file_name := "shot.png"; file_type := "image/png" |}.

Definition reportDocument : File :=
  {| file_name := "report.pdf"; file_type := "application/pdf" |}.

Definition emptyPage : Page := {| view := emptyApp; objectURLs := [] |}.

Definition freshTab : Tab unit :=
  {| world := freshWorld tt emptyApp; registry := [] |}.


(** A photo is attached, a question typed and submitted. *)
Definition answeredTab : Tab unit :=
  step expertStub (Submitted 10 20)
    (step expertStub (Typed vpnQuestion)
       (step expertStub (FileChanged (Some photo) "blob:photo") freshTab)).

(** A photo is attached, then a document in its place. *)
Definition replacedTab : Tab unit :=
  step expertStub (FileChanged (Some reportDocument) "blob:report")
    (step expertStub (FileChanged (Some photo) "blob:photo") freshTab).

(** Live tabs: nothing done yet; a photo attached, a question typed and
    submitted, so that the page is loading; New Chat pressed before the two
    calls of that submission settle. *)
Definition liveStart : Live unit := {| tab := freshTab; pending := [] |}.

Definition loadingLive : Live unit :=
  liveStep expertStub (User (Submitted 10 20))
    (liveStep expertStub (User (Typed vpnQuestion))
       (liveStep expertStub (User (FileChanged (Some photo) "blob:photo"))
          liveStart)).

Definition interruptedLive : Live unit :=
  liveStep expertStub (CallSettled 0)
    (liveStep expertStub (CallSettled 0)
       (liveStep expertStub (User NewChatClicked) loadingLive)).

(** A document attached in place of a photo; then the document is removed,
    a question submitted and a new chat started while it is pending. *)
Definition replacedLive : Live unit :=
  {| tab := replacedTab; pending := [] |}.

Definition clearedLive : Live unit :=
  liveStep expertStub (User NewChatClicked)
    (liveStep expertStub (User (Submitted 10 20))
       (liveStep expertStub (User RemoveAttachmentClicked)
          (liveStep expertStub (User (Typed vpnQuestion)) replacedLive))).

(** * Properties *)

(** ** Examples *)

Example toLowerCase_mixed : toLowerCase "True. Yes!" = "true. yes!".
Proof. reflexivity. Qed.

Example trim_spaces : trim "  a b  " = "a b".
Proof. reflexivity. Qed.

Example trim_nbsp : trim (ofCodes [194; 160; 9; 226; 128; 168]) = EmptyString.
Proof. reflexivity. Qed.

Example classification_samples :
  isCyberSecurityRelated "true" = true
  /\ isCyberSecurityRelated "TRUE" = true
  /\ isCyberSecurityRelated "Untrue." = true
  /\ isCyberSecurityRelated "false" = false
  /\ isCyberSecurityRelated "tru e" = false
  /\ isCyberSecurityRelated EmptyString = false.
Proof. repeat split; reflexivity. Qed.

Example empty_reply_is_refused :
  answer (stub (fulfilled EmptyString) (fulfilled "Step 1: ...")) vpnQuestion
    (freshWorld tt emptyApp)
  = Fulfilled offTopicRefusal.
Proof. reflexivity. Qed.

Example guard_samples :
  submitBlocked blankForm = true
  /\ submitBlocked busyForm = true
  /\ submitBlocked blankWithFile = false
  /\ submitBlocked askingVpn = false.
Proof. repeat split; reflexivity. Qed.

(** The examples of the specification's section 8. *)
Example firewall_question :
  answer expertStub firewallQuestion (freshWorld tt emptyApp)
  = Fulfilled "Step 1: ...".
Proof. reflexivity. Qed.

Example pizza_question :
  let w := freshWorld tt emptyApp in
  let svc := stub (fulfilled "false") (fulfilled "never asked") in
  answer svc "What's the best pizza topping?" w = Fulfilled offTopicRefusal
  /\ calls (after svc "What's the best pizza topping?" w)
     = [ {| req_model := model;
            req_prompt := categoryCheckPrompt "What's the best pizza topping?" |} ].
Proof. split; reflexivity. Qed.

Example network_error :
  let w := freshWorld tt emptyApp in
  let svc := stub (inl "network error") (fulfilled "never asked") in
  answer svc "What is a VPN?" w = Fulfilled technicalDifficulties
  /\ calls (after svc "What is a VPN?" w)
     = [ {| req_model := model;
            req_prompt := categoryCheckPrompt "What is a VPN?" |} ].
Proof. split; reflexivity. Qed.


(** ** Strings *)

Section StringFacts.

Lemma startsWith_iff (p s : string) :
  startsWith p s = true <-> exists post, s = p ++ post.
Proof.
  revert s; induction p as [|a p IH]; intros s; simpl.
  - split; [intros _; exists s; reflexivity | reflexivity].
  - destruct s as [|b s]; simpl.
    + split; [discriminate | intros [post H]; discriminate H].
    + rewrite andb_true_iff, Ascii.eqb_eq, IH. split.
      * intros [-> [post ->]]. exists post. reflexivity.
      * intros [post H]. injection H as -> ->. split; eauto.
Qed.

Lemma includes_iff (s needle : string) :
  includes s needle = true <-> contains s needle.
Proof.
  unfold contains. induction s as [|c s IH].
  - simpl. rewrite orb_false_r, startsWith_iff. split.
    + intros [post H]. exists EmptyString, post. exact H.
    + intros [pre [post H]]. destruct pre; [eauto | discriminate H].
  - cbn [includes]. rewrite orb_true_iff, startsWith_iff, IH. split.
    + intros [[post H] | [pre [post H]]].
      * exists EmptyString, post. exact H.
      * exists (String c pre), post. simpl. now rewrite H.
    + intros [[|c' pre] [post H]].
      * left. exists post. exact H.
      * right. injection H as _ H. eauto.
Qed.

Lemma includes_false_iff (s needle : string) :
  includes s needle = false <-> ~ contains s needle.
Proof.
  rewrite <- includes_iff. destruct (includes s needle); intuition congruence.
Qed.




End StringFacts.

(** ** One run of [getGeminiResponse] *)

Arguments categoryCheckPrompt : simpl never.
Arguments prompt : simpl never.
Arguments isCyberSecurityRelated : simpl never.
Arguments offTopicRefusal : simpl never.
Arguments technicalDifficulties : simpl never.

Section Pipeline.

Context {S : Type} (svc : Service S).

(** Every path through lines 20-40, written out. *)
Lemma run_getGeminiResponse (q : string) (w : World S) :
  run svc (getGeminiResponse q) w =
  match replyText (firstReply svc q w) with
  | None =>
      (Fulfilled technicalDifficulties,
       {| remote := firstState svc q w; app := app w;
          calls := calls w ++ [classifyRequest q];
          console := console w ++ [diagnostic] |})
  | Some t =>
      if isCyberSecurityRelated t then
        match replyText (secondReply svc q w) with
        | Some a =>
            (Fulfilled a,
             {| remote := secondState svc q w; app := app w;
                calls := calls w ++ [classifyRequest q; answerRequest q];
                console := console w |})
        | None =>
            (Fulfilled technicalDifficulties,
             {| remote := secondState svc q w; app := app w;
                calls := calls w ++ [classifyRequest q; answerRequest q];
                console := console w ++ [diagnostic] |})
        end
      else
        (Fulfilled offTopicRefusal,
         {| remote := firstState svc q w; app := app w;
            calls := calls w ++ [classifyRequest q];
            console := console w |})
  end.
Proof.
  unfold secondReply, secondState, firstReply, firstState, getGeminiResponse.
  fold (classifyRequest q). cbn [generateContent bind try_catch run].
  fold (classifyRequest q).
  destruct (svc (classifyRequest q) (remote w)) as [r1 s1].
  destruct r1 as [e | [[e | t]]]; cbn; try reflexivity.
  destruct (isCyberSecurityRelated t); cbn; [|reflexivity].
  fold (answerRequest q).
  destruct (svc (answerRequest q) s1) as [r2 s2].
  destruct r2 as [e | [[e | a]]]; cbn; rewrite <- app_assoc; reflexivity.
Qed.

Lemma answer_answerOf (q : string) (w : World S) :
  answer svc q w = Fulfilled (answerOf (firstReply svc q w) (secondReply svc q w)).
Proof.
  unfold answer, answerOf. rewrite run_getGeminiResponse.
  destruct (replyText (firstReply svc q w)) as [t|]; [|reflexivity].
  destruct (isCyberSecurityRelated t); [|reflexivity].
  destruct (replyText (secondReply svc q w)); reflexivity.
Qed.

Lemma calls_after (q : string) (w : World S) :
  calls (after svc q w) =
  (calls w ++ classifyRequest q ::
     (if inDomain (firstReply svc q w) then [answerRequest q] else []))%list.
Proof.
  unfold after, inDomain. rewrite run_getGeminiResponse.
  destruct (replyText (firstReply svc q w)) as [t|]; [|reflexivity].
  destruct (isCyberSecurityRelated t); [|reflexivity].
  destruct (replyText (secondReply svc q w)); reflexivity.
Qed.

Lemma remote_after (q : string) (w : World S) :
  remote (after svc q w) =
  if inDomain (firstReply svc q w) then secondState svc q w else firstState svc q w.
Proof.
  unfold after, inDomain. rewrite run_getGeminiResponse.
  destruct (replyText (firstReply svc q w)) as [t|]; [|reflexivity].
  destruct (isCyberSecurityRelated t); [|reflexivity].
  destruct (replyText (secondReply svc q w)); reflexivity.
Qed.

Lemma app_after (q : string) (w : World S) :
  app (after svc q w) = app w.
Proof.
  unfold after. rewrite run_getGeminiResponse.
  destruct (replyText (firstReply svc q w)) as [t|]; [|reflexivity].
  destruct (isCyberSecurityRelated t); [|reflexivity].
  destruct (replyText (secondReply svc q w)); reflexivity.
Qed.

End Pipeline.

(** ** Letter case *)







(** ** The classification (line 26) *)


(** ** The three ways a run ends (lines 28-39) *)

(** C2.  When the classifier's response text does not contain "true" in any
    letter case, [getGeminiResponse] returns the off-topic refusal and the
    only request of the run is the classification request: the generator
    is not invoked. *)
Theorem refusal_without_true {S : Type} (svc : Service S) (q : string)
  (w : World S) (t : string)
  (Htext : replyText (firstReply svc q w) = Some t)
  (Hno : ~ contains (toLowerCase t) "true") :
  run svc (getGeminiResponse q) w =
  (Fulfilled offTopicRefusal,
   {| remote := firstState svc q w; app := app w;
      calls := calls w ++ [classifyRequest q];
      console := console w |}).
Proof.
  rewrite run_getGeminiResponse, Htext.
  apply includes_false_iff in Hno.
  unfold isCyberSecurityRelated. now rewrite Hno.
Qed.

(** C3.  When the classifier's response text contains "true" in any letter
    case, the run sends exactly two requests, the classification request
    and then one generation request, whose prompt is the fixed instruction
    followed by the question as it was given. *)
Theorem generator_called_once {S : Type} (svc : Service S) (q : string)
  (w : World S) (t : string)
  (Htext : replyText (firstReply svc q w) = Some t)
  (Hyes : contains (toLowerCase t) "true") :
  calls (after svc q w) =
  (calls w ++
   [ classifyRequest q;
     {| req_model := model;
        req_prompt :=
          "You are a cybersecurity expert AI assistant. Please provide a detailed, professional response to this cybersecurity question: "
          ++ q |} ])%list.
Proof.
  rewrite calls_after. unfold inDomain. rewrite Htext.
  apply includes_iff in Hyes. unfold isCyberSecurityRelated.
  now rewrite Hyes.
Qed.

(** C4.  If the classification call raises an error, or the question is
    classified in-domain and the generation call raises one,
    [getGeminiResponse] is fulfilled with the technical-difficulty string:
    the error does not reach the caller. *)
Theorem remote_errors_become_apology {S : Type} (svc : Service S)
  (q : string) (w : World S)
  (Hfail : failed (firstReply svc q w) = true
           \/ (inDomain (firstReply svc q w) = true
               /\ failed (secondReply svc q w) = true)) :
  answer svc q w = Fulfilled technicalDifficulties.
Proof.
  rewrite answer_answerOf. unfold answerOf.
  unfold failed, inDomain in Hfail.
  destruct (replyText (firstReply svc q w)) as [t|]; [|reflexivity].
  destruct Hfail as [Hfail | [Hin Hfail]]; [discriminate Hfail|].
  rewrite Hin.
  destruct (replyText (secondReply svc q w)); [discriminate Hfail|reflexivity].
Qed.

(** C5.  For an in-domain question whose generation call succeeds, the
    answer is the text of the generator's response, unchanged. *)
Theorem answer_is_raw_text {S : Type} (svc : Service S) (q : string)
  (w : World S) (a : string)
  (Hin : inDomain (firstReply svc q w) = true)
  (Hgen : replyText (secondReply svc q w) = Some a) :
  answer svc q w = Fulfilled a.
Proof.
  rewrite answer_answerOf. unfold answerOf.
  unfold inDomain in Hin.
  destruct (replyText (firstReply svc q w)) as [t|]; [|discriminate Hin].
  now rewrite Hin, Hgen.
Qed.

(** ** Repetition, order and independence *)

Section Independence.

Context {S : Type} (svc : Service S).

(** The answer is read off the service alone: nothing else a world holds
    enters it. *)
Lemma answer_same_remote (q : string) (w w' : World S) :
  remote w' = remote w -> answer svc q w' = answer svc q w.
Proof.
  intro H. rewrite !answer_answerOf.
  unfold secondReply, firstReply, firstState. now rewrite H.
Qed.

Lemma answer_deterministic (q : string) (w w' : World S) :
  deterministic svc -> answer svc q w' = answer svc q w.
Proof.
  intro Hdet. rewrite !answer_answerOf.
  unfold secondReply, firstReply.
  rewrite (Hdet (classifyRequest q) (remote w') (remote w)).
  now rewrite (Hdet (answerRequest q) (firstState svc q w')
                 (firstState svc q w)).
Qed.

End Independence.

(** C6.  Against a deterministic service, asking the same question a second
    time, after the first run has finished, gives the same answer. *)
Theorem same_question_same_answer {S : Type} (svc : Service S)
  (Hdet : deterministic svc) (q : string) (w : World S) :
  answer svc q (after svc q w) = answer svc q w.
Proof. now apply answer_deterministic. Qed.

(** C7.  A run sends the classification request first and at most one more
    request, the generation request, which is sent from the continuation of
    the classification call, exactly when that call returned a text
    containing "true" in some letter case, and is handled by the service in
    the state the classification call left.  On the refusal path and when
    classification fails, the classification request is the only one. *)
Theorem calls_are_sequential {S : Type} (svc : Service S) (q : string)
  (w : World S) :
  (exists k, getGeminiResponse q = Generate (classifyRequest q) k)
  /\ calls (after svc q w) =
     (calls w ++ classifyRequest q ::
        (if inDomain (firstReply svc q w) then [answerRequest q] else []))%list
  /\ remote (after svc q w) =
     (if inDomain (firstReply svc q w)
      then snd (svc (answerRequest q)
                  (snd (svc (classifyRequest q) (remote w))))
      else snd (svc (classifyRequest q) (remote w)))
  /\ (inDomain (firstReply svc q w) = true <->
      exists t, replyText (firstReply svc q w) = Some t
                /\ contains (toLowerCase t) "true")
  /\ (length (calls (after svc q w)) <= length (calls w) + 2)%nat.
Proof.
  split; [eexists; reflexivity|].
  split; [apply calls_after|].
  split; [apply remote_after|].
  split.
  - unfold inDomain.
    destruct (replyText (firstReply svc q w)) as [t|].
    + unfold isCyberSecurityRelated. rewrite includes_iff. split.
      * intro H. exists t. split; [reflexivity | exact H].
      * intros [t' [Ht' H]]. injection Ht' as <-. exact H.
    + split; [discriminate | intros [t [Ht _]]; discriminate Ht].
  - rewrite calls_after, length_app.
    destruct (inDomain (firstReply svc q w)); simpl; lia.
Qed.

(** C8.  An invocation keeps no state and reads none: its answer is a
    function of the service's replies to the two prompts built from the
    question, it is the same whatever the component's state, the earlier
    requests and the console were, it leaves the component's state as it
    was, and every request it sends is one of those two prompts. *)
Theorem invocation_is_stateless {S : Type} (svc : Service S) (q : string)
  (w : World S) :
  answer svc q w = Fulfilled (answerOf (firstReply svc q w) (secondReply svc q w))
  /\ (forall a sent log,
        answer svc q
          {| remote := remote w; app := a; calls := sent; console := log |}
        = answer svc q w)
  /\ app (after svc q w) = app w
  /\ exists sent,
       calls (after svc q w) = (calls w ++ sent)%list
       /\ Forall (fun r => r = classifyRequest q \/ r = answerRequest q) sent.
Proof.
  split; [apply answer_answerOf|].
  split; [intros a sent log; now apply answer_same_remote|].
  split; [apply app_after|].
  rewrite calls_after. eexists. split; [reflexivity|].
  destruct (inDomain (firstReply svc q w));
    repeat (apply Forall_cons || apply Forall_nil); auto.
Qed.

(** ** Running composed functions *)

Section RunLaws.

Context {S : Type} (svc : Service S).

Lemma run_bind {A B : Type} (m : Async A) (f : A -> Async B) (w : World S) :
  run svc (bind m f) w =
  match run svc m w with
  | (Fulfilled a, w') => run svc (f a) w'
  | (Rejected e, w') => (Rejected e, w')
  end.
Proof.
  revert w; induction m as [a | e | req k IH | args k IH | g k IH];
    intro w; cbn [bind run]; auto.
  destruct (svc req (remote w)) as [r s']. apply IH.
Qed.

Lemma run_try_catch {A : Type} (m : Async A) (h : JsError -> Async A)
  (w : World S) :
  run svc (try_catch m h) w =
  match run svc m w with
  | (Fulfilled a, w') => (Fulfilled a, w')
  | (Rejected e, w') => run svc (h e) w'
  end.
Proof.
  revert w; induction m as [a | e | req k IH | args k IH | g k IH];
    intro w; cbn [try_catch run]; auto.
  destruct (svc req (remote w)) as [r s']. apply IH.
Qed.

Lemma run_try_finally {A : Type} (m : Async A) (f : Async unit)
  (w : World S) :
  run svc (try_finally m f) w =
  match run svc m w with
  | (r, w') =>
      match run svc f w' with
      | (Fulfilled _, w'') => (r, w'')
      | (Rejected e, w'') => (Rejected e, w'')
      end
  end.
Proof.
  revert w; induction m as [a | e | req k IH | args k IH | g k IH];
    intro w; cbn [try_finally run]; auto.
  - rewrite run_bind. now destruct (run svc f w) as [[u | e] w''].
  - rewrite run_bind. now destruct (run svc f w) as [[u | e'] w''].
  - destruct (svc req (remote w)) as [r s']. apply IH.
Qed.

(** [getGeminiResponse] is fulfilled on every path. *)
Lemma run_getGeminiResponse_fulfilled (q : string) (w : World S) :
  run svc (getGeminiResponse q) w =
  (Fulfilled (answerOf (firstReply svc q w) (secondReply svc q w)),
   after svc q w).
Proof.
  rewrite <- answer_answerOf. unfold answer, after.
  now destruct (run svc (getGeminiResponse q) w).
Qed.

(** A submission that passes the guard, written out. *)
Lemma run_handleSubmit (render : AppState) (now later : Z) (w : World S) :
  submitBlocked render = false ->
  let w0 := {| remote := remote w; app := beforeRequest render now (app w);
               calls := calls w; console := console w |} in
  let w1 := after svc (input render) w0 in
  let response :=
    answerOf (firstReply svc (input render) w)
      (secondReply svc (input render) w) in
  run svc (handleSubmit render now later) w =
  (Fulfilled tt,
   {| remote := remote w1; app := afterResponse response later (app w0);
      calls := calls w1; console := console w1 |}).
Proof.
  intros Hgo w0 w1 response. unfold handleSubmit. rewrite Hgo.
  cbn [update bind run remote app calls console].
  rewrite run_try_finally, run_try_catch, run_bind.
  rewrite run_getGeminiResponse_fulfilled.
  cbn [update run remote app calls console].
  rewrite app_after. reflexivity.
Qed.

End RunLaws.

(** ** The caller: [handleSubmit] *)

Lemma console_after {S : Type} (svc : Service S) (q : string) (w : World S) :
  exists extra,
    console (after svc q w) = (console w ++ extra)%list
    /\ Forall (eq diagnostic) extra.
Proof.
  unfold after. rewrite run_getGeminiResponse.
  destruct (replyText (firstReply svc q w)) as [t|].
  - destruct (isCyberSecurityRelated t).
    + destruct (replyText (secondReply svc q w)); cbn [snd console].
      * exists []. now rewrite app_nil_r.
      * exists [diagnostic]. auto.
    + exists []. cbn [snd console]. now rewrite app_nil_r.
  - exists [diagnostic]. auto.
Qed.

(** C9.  [getGeminiResponse] is fulfilled with a string on every run and is
    never rejected.  So a submission that passes the guard of line 130 ends
    on the [try] path of [handleSubmit], whatever the remote calls did: the
    messages gain the user's message and a bot message carrying the string
    [getGeminiResponse] returned, loading is switched off, and the [catch]
    clause of [handleSubmit] has written nothing to the console. *)
Theorem getGeminiResponse_never_rejects {S : Type} (svc : Service S)
  (render : AppState) (now later : Z) (w : World S)
  (Hgo : submitBlocked render = false) :
  (forall q w', exists a,
      run svc (getGeminiResponse q) w' = (Fulfilled a, after svc q w'))
  /\ exists response,
       answer svc (input render) w = Fulfilled response
       /\ fst (run svc (handleSubmit render now later) w) = Fulfilled tt
       /\ messages (app (snd (run svc (handleSubmit render now later) w)))
          = (messages (app w)
             ++ [userMessage render now; botResponse response later])%list
       /\ isLoading (app (snd (run svc (handleSubmit render now later) w)))
          = false
       /\ forall e,
            In ["Error getting Gemini response:"; e]
              (console (snd (run svc (handleSubmit render now later) w)))
            -> In ["Error getting Gemini response:"; e] (console w).
Proof.
  split.
  - intros q w'. eexists. apply run_getGeminiResponse_fulfilled.
  - eexists. split; [apply answer_answerOf|].
    rewrite (run_handleSubmit svc render now later w Hgo).
    cbn [fst snd app console afterResponse beforeRequest setIsLoading
         setMessages clearFileInput setAttachment setInput setSearchHistory
         messages isLoading].
    split; [reflexivity|]. split; [now rewrite <- app_assoc|].
    split; [reflexivity|].
    intros e He.
    destruct (console_after svc (input render)
                {| remote := remote w;
                   app := beforeRequest render now (app w);
                   calls := calls w; console := console w |})
      as [extra [Hc Hextra]].
    rewrite Hc in He. cbn [console] in He.
    apply in_app_or in He. destruct He as [He | He]; [exact He|].
    rewrite Forall_forall in Hextra. apply Hextra in He. discriminate He.
Qed.

(** C10.  A submission changes nothing and sends nothing when the trimmed
    input is empty and there is no attachment, or when a request is in
    flight.  With an attachment and no request in flight, an input of white
    space alone is submitted: it becomes the user's message and, untrimmed,
    the question of the classification request. *)
Theorem blocked_submission_is_noop {S : Type} (svc : Service S)
  (render : AppState) (now later : Z) (w : World S) :
  ((trim (input render) = EmptyString /\ attachment render = None)
   \/ isLoading render = true ->
   handleSubmit render now later = Resolve tt
   /\ run svc (handleSubmit render now later) w = (Fulfilled tt, w))
  /\ (forall att,
        trim (input render) = EmptyString ->
        attachment render = Some att ->
        isLoading render = false ->
        exists response rest,
          messages (app (snd (run svc (handleSubmit render now later) w)))
          = (messages (app w)
             ++ [ {| msg_type := user; msg_content := input render;
                     msg_attachment := Some att; msg_timestamp := Some now |};
                  botResponse response later ])%list
          /\ calls (snd (run svc (handleSubmit render now later) w))
             = (calls w ++ classifyRequest (input render) :: rest)%list).
Proof.
  split.
  - intro H.
    assert (Hb : submitBlocked render = true).
    { unfold submitBlocked. destruct H as [[Ht Ha] | Hl].
      - now rewrite Ht, Ha.
      - rewrite Hl. apply orb_true_r. }
    unfold handleSubmit. rewrite Hb. split; reflexivity.
  - intros att Ht Ha Hl.
    assert (Hgo : submitBlocked render = false).
    { unfold submitBlocked. now rewrite Ht, Ha, Hl. }
    rewrite (run_handleSubmit svc render now later w Hgo).
    cbn [snd app calls afterResponse beforeRequest setIsLoading
         setMessages clearFileInput setAttachment setInput setSearchHistory
         messages].
    rewrite calls_after. cbn [calls].
    eexists. eexists. split; [|reflexivity].
    rewrite <- app_assoc. unfold userMessage. now rewrite Ha.
Qed.

(** ** The theorems at work *)

Lemma refusal_without_true_witness :
  replyText (firstReply refusingStub pizzaQuestion (freshWorld tt emptyApp))
  = Some "false"
  /\ ~ contains (toLowerCase "false") "true"
  /\ run refusingStub (getGeminiResponse pizzaQuestion)
       (freshWorld tt emptyApp)
     = (Fulfilled offTopicRefusal,
        {| remote := tt; app := emptyApp;
           calls := [classifyRequest pizzaQuestion]; console := [] |}).
Proof.
  assert (Hno : ~ contains (toLowerCase "false") "true")
    by (apply includes_false_iff; reflexivity).
  split; [reflexivity|]. split; [exact Hno|].
  exact (refusal_without_true refusingStub pizzaQuestion
           (freshWorld tt emptyApp) "false" eq_refl Hno).
Defined.

Lemma generator_called_once_witness :
  replyText (firstReply expertStub firewallQuestion (freshWorld tt emptyApp))
  = Some "True."
  /\ contains (toLowerCase "True.") "true"
  /\ calls (after expertStub firewallQuestion (freshWorld tt emptyApp))
     = [ classifyRequest firewallQuestion;
         {| req_model := model;
            req_prompt :=
              "You are a cybersecurity expert AI assistant. Please provide a detailed, professional response to this cybersecurity question: How do I set up a firewall rule to block inbound SSH?" |} ].
Proof.
  assert (Hyes : contains (toLowerCase "True.") "true")
    by (exists EmptyString, "."; reflexivity).
  split; [reflexivity|]. split; [exact Hyes|].
  exact (generator_called_once expertStub firewallQuestion
           (freshWorld tt emptyApp) "True." eq_refl Hyes).
Defined.

Lemma remote_errors_become_apology_witness :
  (failed (firstReply offlineStub vpnQuestion (freshWorld tt emptyApp)) = true
   /\ answer offlineStub vpnQuestion (freshWorld tt emptyApp)
      = Fulfilled technicalDifficulties)
  /\ (inDomain (firstReply blockedStub vpnQuestion (freshWorld tt emptyApp))
      = true
      /\ failed (secondReply blockedStub vpnQuestion (freshWorld tt emptyApp))
         = true
      /\ answer blockedStub vpnQuestion (freshWorld tt emptyApp)
         = Fulfilled technicalDifficulties).
Proof.
  split.
  - split; [reflexivity|].
    apply (remote_errors_become_apology offlineStub vpnQuestion
             (freshWorld tt emptyApp)).
    left. reflexivity.
  - split; [reflexivity|]. split; [reflexivity|].
    apply (remote_errors_become_apology blockedStub vpnQuestion
             (freshWorld tt emptyApp)).
    right. split; reflexivity.
Defined.

Lemma answer_is_raw_text_witness :
  inDomain (firstReply expertStub firewallQuestion (freshWorld tt emptyApp))
  = true
  /\ replyText (secondReply expertStub firewallQuestion
                  (freshWorld tt emptyApp))
     = Some "Step 1: ..."
  /\ answer expertStub firewallQuestion (freshWorld tt emptyApp)
     = Fulfilled "Step 1: ...".
Proof.
  split; [reflexivity|]. split; [reflexivity|].
  apply (answer_is_raw_text expertStub firewallQuestion
           (freshWorld tt emptyApp) "Step 1: ..."); reflexivity.
Defined.

Lemma same_question_same_answer_witness :
  deterministic expertStub
  /\ answer expertStub firewallQuestion
       (after expertStub firewallQuestion (freshWorld tt emptyApp))
     = answer expertStub firewallQuestion (freshWorld tt emptyApp).
Proof.
  assert (Hdet : deterministic expertStub)
    by (intros req [] []; reflexivity).
  split; [exact Hdet|].
  exact (same_question_same_answer expertStub Hdet firewallQuestion
           (freshWorld tt emptyApp)).
Defined.

Lemma getGeminiResponse_never_rejects_witness :
  submitBlocked askingVpn = false
  /\ messages
       (app (snd (run offlineStub (handleSubmit askingVpn 10 20)
                    (freshWorld tt askingVpn))))
     = [ userMessage askingVpn 10; botResponse technicalDifficulties 20 ].
Proof.
  split; [reflexivity|].
  destruct (getGeminiResponse_never_rejects offlineStub askingVpn 10 20
              (freshWorld tt askingVpn) eq_refl)
    as [_ [response [Hanswer [_ [Hmessages _]]]]].
  rewrite Hmessages.
  assert (Hresponse : Fulfilled response = Fulfilled technicalDifficulties)
    by (rewrite <- Hanswer; reflexivity).
  injection Hresponse as ->. reflexivity.
Defined.

Lemma blocked_submission_is_noop_witness :
  (trim (input blankForm) = EmptyString
   /\ run expertStub (handleSubmit blankForm 10 20) (freshWorld tt blankForm)
      = (Fulfilled tt, freshWorld tt blankForm))
  /\ (isLoading busyForm = true
      /\ run expertStub (handleSubmit busyForm 10 20) (freshWorld tt busyForm)
         = (Fulfilled tt, freshWorld tt busyForm))
  /\ (trim (input blankWithFile) = EmptyString
      /\ exists response rest,
           messages
             (app (snd (run expertStub (handleSubmit blankWithFile 10 20)
                          (freshWorld tt blankWithFile))))
           = [ {| msg_type := user; msg_content := "   ";
                  msg_attachment := Some reportFile;
                  msg_timestamp := Some 10%Z |};
               botResponse response 20 ]
           /\ calls
                (snd (run expertStub (handleSubmit blankWithFile 10 20)
                        (freshWorld tt blankWithFile)))
              = classifyRequest "   " :: rest).
Proof.
  split; [|split].
  - split; [reflexivity|].
    apply (blocked_submission_is_noop expertStub blankForm 10 20
             (freshWorld tt blankForm)).
    left. split; reflexivity.
  - split; [reflexivity|].
    apply (blocked_submission_is_noop expertStub busyForm 10 20
             (freshWorld tt busyForm)).
    right. reflexivity.
  - split; [reflexivity|].
    apply (proj2 (blocked_submission_is_noop expertStub blankWithFile 10 20
                    (freshWorld tt blankWithFile)) reportFile);
      reflexivity.
Defined.

(** * Further properties *)

(** ** The console and the prompts of [getGeminiResponse] *)

(** The console after a run, written out. *)
Lemma console_after_run {S : Type} (svc : Service S) (q : string)
  (w : World S) :
  console (after svc q w) =
  (console w ++
   (if failed (firstReply svc q w)
       || (inDomain (firstReply svc q w) && failed (secondReply svc q w))
    then [ ["Error getting Gemini response:"] ]
    else []))%list.
Proof.
  unfold after, failed, inDomain. rewrite run_getGeminiResponse.
  destruct (replyText (firstReply svc q w)) as [t|]; [|reflexivity].
  destruct (isCyberSecurityRelated t); cbn [orb andb snd console].
  - destruct (replyText (secondReply svc q w)); cbn [snd console];
      [now rewrite app_nil_r | reflexivity].
  - now rewrite app_nil_r.
Qed.

(** X1.  A run writes to the console exactly when one of its calls raised
    an error, and then it writes the one fixed line of line 38: the value
    that was thrown is never printed. *)
Theorem console_records_failures {S : Type} (svc : Service S) (q : string)
  (w : World S) :
  console (after svc q w) =
  (console w ++
   (if failed (firstReply svc q w)
       || (inDomain (firstReply svc q w) && failed (secondReply svc q w))
    then [ ["Error getting Gemini response:"] ]
    else []))%list.
Proof. apply console_after_run. Qed.

Lemma append_inv_head (p a b : string) : p ++ a = p ++ b -> a = b.
Proof.
  induction p as [|c p IH]; simpl; intro H; [exact H|].
  injection H as H. auto.
Qed.

Lemma length_append (a b : string) :
  String.length (a ++ b) = String.length a + String.length b.
Proof. induction a as [|c a IH]; simpl; [|rewrite IH]; reflexivity. Qed.

Lemma append_inv_tail (d a b : string) : a ++ d = b ++ d -> a = b.
Proof.
  revert b; induction a as [|c a IH]; intros [|c' b] H; simpl in H.
  - reflexivity.
  - apply (f_equal String.length) in H. simpl in H.
    rewrite length_append in H. lia.
  - apply (f_equal String.length) in H. simpl in H.
    rewrite length_append in H. lia.
  - injection H as -> H. f_equal. auto.
Qed.

(** X2.  Each template embeds the question so that it can be read back:
    different questions give different classification prompts and different
    generation prompts, and no classification prompt is a generation
    prompt. *)
Theorem prompts_tell_questions_apart :
  (forall q1 q2, categoryCheckPrompt q1 = categoryCheckPrompt q2 -> q1 = q2)
  /\ (forall q1 q2, prompt q1 = prompt q2 -> q1 = q2)
  /\ (forall q1 q2, categoryCheckPrompt q1 <> prompt q2).
Proof.
  split; [|split].
  - intros q1 q2 H. unfold categoryCheckPrompt in H.
    repeat apply append_inv_head in H.
    now apply append_inv_tail in H.
  - intros q1 q2 H. unfold prompt in H. now apply append_inv_head in H.
  - intros q1 q2 H. unfold categoryCheckPrompt, prompt in H.
    simpl in H. discriminate H.
Qed.

(** ** What a submission does to the page *)

(** X3.  A submission that passes the guard empties the input, drops the
    pending attachment, empties the file input when it is attached, puts
    the question with the time of submission at the head of the search
    history, appends the user's message and the bot's message carrying
    the answer, ends with loading switched off and leaves the sidebar as
    it was. *)
Theorem submission_effects {S : Type} (svc : Service S) (render : AppState)
  (now later : Z) (w : World S)
  (Hgo : submitBlocked render = false) :
  exists response,
    answer svc (input render) w = Fulfilled response
    /\ app (snd (run svc (handleSubmit render now later) w)) =
       {| input := EmptyString;
          messages :=
            messages (app w)
            ++ [ {| msg_type := user; msg_content := input render;
                    msg_attachment := attachment render;
                    msg_timestamp := Some now |};
                 {| msg_type := bot; msg_content := response;
                    msg_attachment := None;
                    msg_timestamp := Some later |} ];
          isLoading := false;
          attachment := None;
          isSidebarOpen := isSidebarOpen (app w);
          fileInputRef :=
            match fileInputRef (app w) with
            | Some _ => Some EmptyString
            | None => None
            end;
          searchHistory :=
            {| question := input render; timestamp := now |}
            :: searchHistory (app w) |}.
Proof.
  eexists. split; [apply answer_answerOf|].
  rewrite (run_handleSubmit svc render now later w Hgo).
  cbn [snd app]. unfold afterResponse, beforeRequest, setIsLoading, setMessages,
    clearFileInput, setAttachment, setInput, setSearchHistory, userMessage,
    botResponse. cbn. now rewrite <- app_assoc.
Qed.

(** X4.  The pending attachment is not sent: two submissions of the same
    input that differ in the attachment send the same requests, leave the
    service in the same state and put the same answer on the page. *)
Theorem attachment_is_not_sent {S : Type} (svc : Service S)
  (render : AppState) (other : option Attachment) (now later : Z)
  (w : World S)
  (Hgo : submitBlocked render = false)
  (Hother : submitBlocked (setAttachment other render) = false) :
  let w1 := snd (run svc (handleSubmit render now later) w) in
  let w2 :=
    snd (run svc (handleSubmit (setAttachment other render) now later) w) in
  calls w2 = calls w1
  /\ remote w2 = remote w1
  /\ map msg_content (messages (app w2)) = map msg_content (messages (app w1))
  /\ Forall (fun r => r = classifyRequest (input render)
                      \/ r = answerRequest (input render))
       (skipn (length (calls w)) (calls w1)).
Proof.
  intros w1 w2. subst w1 w2.
  rewrite (run_handleSubmit svc render now later w Hgo).
  rewrite (run_handleSubmit svc _ now later w Hother).
  cbn [snd calls remote app input setAttachment].
  rewrite !calls_after, !remote_after. cbn [remote calls].
  split; [reflexivity|]. split; [reflexivity|]. split.
  - cbn. rewrite <- !app_assoc, !map_app. reflexivity.
  - rewrite skipn_app, skipn_all, Nat.sub_diag. cbn [skipn app].
    unfold firstReply. cbn [remote].
    destruct (inDomain _); repeat (apply Forall_cons || apply Forall_nil);
      auto.
Qed.

(** ** Handlers that run while the answer is awaited *)

Lemma runDuring_nil {S A : Type} (svc : Service S) (m : Async A)
  (w : World S) :
  runDuring svc [] m w = run svc m w.
Proof.
  revert w; induction m as [a | e | req k IH | args k IH | g k IH];
    intro w; cbn [runDuring run tl hd]; auto.
  destruct (svc req (remote w)) as [r s']. destruct w. apply IH.
Qed.

(** A submission that passes the guard, with handlers running meanwhile. *)
Lemma runDuring_handleSubmit {S : Type} (svc : Service S)
  (render : AppState) (now later : Z) (w : World S)
  (h1 h2 : AppState -> AppState)
  (Hgo : submitBlocked render = false) :
  runDuring svc [h1; h2] (handleSubmit render now later) w =
  (Fulfilled tt,
   {| remote := remote (after svc (input render) w);
      app :=
        afterResponse
          (answerOf (firstReply svc (input render) w)
             (secondReply svc (input render) w))
          later
          ((if inDomain (firstReply svc (input render) w)
            then h2 else fun a => a)
             (h1 (beforeRequest render now (app w))));
      calls := calls (after svc (input render) w);
      console := console (after svc (input render) w) |}).
Proof.
  rewrite calls_after, remote_after, console_after_run.
  unfold answerOf, inDomain, failed, secondState, secondReply, firstState,
    firstReply.
  unfold handleSubmit, getGeminiResponse. rewrite Hgo.
  cbn [update bind try_catch try_finally generateContent runDuring
       remote app calls console hd tl].
  fold (classifyRequest (input render)).
  fold (beforeRequest render now (app w)).
  destruct (svc (classifyRequest (input render)) (remote w)) as [r1 s1].
  cbn [fst snd].
  destruct r1 as [e | [[e | t]]];
    cbn [replyText response_text text bind try_catch try_finally
         console_error update runDuring remote app calls console hd tl
         orb andb negb];
    try (rewrite app_nil_r; reflexivity); try reflexivity.
  destruct (isCyberSecurityRelated t);
    cbn [negb bind try_catch try_finally generateContent update runDuring
         remote app calls console hd tl orb andb];
    [|now rewrite app_nil_r].
  fold (answerRequest (input render)).
  destruct (svc (answerRequest (input render)) s1) as [r2 s2].
  cbn [fst snd].
  destruct r2 as [e | [[e | a]]];
    cbn [replyText response_text text bind try_catch try_finally
         console_error update runDuring remote app calls console hd tl];
    rewrite <- ?app_assoc, ?app_nil_r; reflexivity.
Qed.

(** X5.  Whatever other handlers do to the page while the two calls are
    pending, the requests, the service and the answer are those of an
    undisturbed run, and the bot's message is appended to the messages as
    they are when the answer arrives, with loading switched off. *)
Theorem answer_lands_on_current_page {S : Type} (svc : Service S)
  (render : AppState) (now later : Z) (w : World S)
  (h1 h2 : AppState -> AppState)
  (Hgo : submitBlocked render = false) :
  runDuring svc [h1; h2] (handleSubmit render now later) w =
  (Fulfilled tt,
   {| remote := remote (after svc (input render) w);
      app :=
        afterResponse
          (answerOf (firstReply svc (input render) w)
             (secondReply svc (input render) w))
          later
          ((if inDomain (firstReply svc (input render) w)
            then h2 else fun a => a)
             (h1 (beforeRequest render now (app w))));
      calls := calls (after svc (input render) w);
      console := console (after svc (input render) w) |}).
Proof. now apply runDuring_handleSubmit. Qed.

(** X6.  New Chat pressed while the classification call is pending empties
    the chat, and the answer still arrives: the chat then holds the bot's
    message alone, without the question it answers, which stays in the
    search history. *)
Theorem new_chat_keeps_pending_answer {S : Type} (svc : Service S)
  (render : AppState) (now later : Z) (w : World S)
  (Hgo : submitBlocked render = false) :
  exists response,
    answer svc (input render) w = Fulfilled response
    /\ let final :=
         app (snd (runDuring svc [handleNewChat; fun a => a]
                     (handleSubmit render now later) w)) in
       messages final = [botResponse response later]
       /\ searchHistory final
          = {| question := input render; timestamp := now |}
            :: searchHistory (app w)
       /\ isLoading final = false.
Proof.
  eexists. split; [apply answer_answerOf|].
  rewrite (runDuring_handleSubmit svc render now later w
             handleNewChat (fun a => a) Hgo).
  cbn [snd app].
  assert (Hsame : (if inDomain (firstReply svc (input render) w)
                   then fun a : AppState => a else fun a => a)
                  = fun a => a)
    by now destruct (inDomain _).
  rewrite Hsame. repeat split; reflexivity.
Qed.

(** ** The emptiness test of the guard (line 130) *)

Section Stripping.

Variable ws : list string.

Lemma append_assoc (a b c : string) : (a ++ b) ++ c = a ++ b ++ c.
Proof. induction a as [|x a IH]; simpl; [|rewrite IH]; reflexivity. Qed.

Lemma append_empty_r (a : string) : a ++ EmptyString = a.
Proof. induction a as [|x a IH]; simpl; [|rewrite IH]; reflexivity. Qed.

Lemma joined_app (ts us : list string) :
  joined (ts ++ us) = joined ts ++ joined us.
Proof.
  induction ts as [|t ts IH]; simpl; [reflexivity|].
  now rewrite IH, append_assoc.
Qed.

Lemma dropPrefix_iff (p s r : string) :
  dropPrefix p s = Some r <-> s = p ++ r.
Proof.
  revert s; induction p as [|a p IH]; intros s; simpl.
  - split; [intro H; now injection H | intros ->; reflexivity].
  - destruct s as [|b s]; [split; discriminate|].
    destruct (Ascii.eqb_spec a b) as [<- | Hne].
    + rewrite IH. split; [intros ->; reflexivity | intro H; now injection H].
    + split; [discriminate | intro H; injection H as H _; congruence].
Qed.

Lemma stripOne_Some (s r : string) :
  stripOne ws s = Some r -> exists w, In w ws /\ s = w ++ r.
Proof.
  induction ws as [|w l IH]; simpl; [discriminate|].
  destruct (dropPrefix w s) as [rest|] eqn:Hd.
  - intro H. injection H as <-. apply dropPrefix_iff in Hd. eauto.
  - intro H. destruct (IH H) as [w' [Hin Hs]]. eauto.
Qed.

(** What [stripAll] removes is a run of members of [ws]. *)
Lemma stripAll_split (n : nat) (s : string) :
  exists ts,
    Forall (fun t => In t ws) ts /\ s = joined ts ++ stripAll n ws s.
Proof.
  revert s; induction n as [|n IH]; intro s; simpl.
  - exists []. auto.
  - destruct (stripOne ws s) as [rest|] eqn:Hs.
    + apply stripOne_Some in Hs. destruct Hs as [w [Hin ->]].
      destruct (IH rest) as [ts [Hts Hrest]].
      exists (w :: ts). split; [auto|].
      simpl. rewrite append_assoc. now rewrite <- Hrest.
    + exists []. auto.
Qed.

Lemma stripAll_empty (n : nat) : stripAll n ws EmptyString = EmptyString.
Proof.
  induction n as [|n IH]; simpl; [reflexivity|].
  destruct (stripOne ws EmptyString) as [rest|] eqn:Hs; [|reflexivity].
  apply stripOne_Some in Hs. destruct Hs as [w [_ Hw]].
  destruct w; [simpl in Hw; now subst | discriminate Hw].
Qed.

(** No member of [ws] is empty or starts another one. *)
Hypothesis ws_nonempty : ~ In EmptyString ws.
Hypothesis ws_prefix_free :
  forall w t, In w ws -> In t ws -> startsWith w t = true -> w = t.

Lemma common_start (w t a b : string) :
  w ++ a = t ++ b -> startsWith w t = true \/ startsWith t w = true.
Proof.
  revert t; induction w as [|x w IH]; intros t H; [now left|].
  destruct t as [|y t]; [now right|].
  simpl in H. injection H as -> H. simpl. rewrite Ascii.eqb_refl.
  exact (IH t H).
Qed.

Lemma stripOne_member (t r : string) :
  In t ws -> stripOne ws (t ++ r) = Some r.
Proof.
  intro Ht.
  assert (G : forall l, incl l ws -> In t l -> stripOne l (t ++ r) = Some r).
  { induction l as [|w l IH]; intros Hl Hin; [destruct Hin|].
    simpl. destruct (dropPrefix w (t ++ r)) as [rest|] eqn:Hd.
    - apply dropPrefix_iff in Hd.
      assert (Hw : In w ws) by (apply Hl; now left).
      assert (w = t).
      { destruct (common_start _ _ _ _ (eq_sym Hd)); auto.
        symmetry. auto. }
      subst w. apply append_inv_head in Hd. now subst.
    - destruct Hin as [-> | Hin].
      + assert (Hr : dropPrefix t (t ++ r) = Some r)
          by now apply dropPrefix_iff.
        congruence.
      + apply IH; [|exact Hin]. intros x Hx. apply Hl. now right. }
  apply G; [apply incl_refl | exact Ht].
Qed.

Lemma stripAll_members (ts : list string) (n : nat) :
  Forall (fun t => In t ws) ts -> length ts <= n ->
  stripAll n ws (joined ts) = EmptyString.
Proof.
  revert n; induction ts as [|t ts IH]; intros n Hts Hn.
  - apply stripAll_empty.
  - destruct n as [|n]; [simpl in Hn; lia|].
    inversion Hts as [|? ? Ht Hrest]; subst.
    simpl. rewrite (stripOne_member t (joined ts) Ht).
    apply IH; [exact Hrest | simpl in Hn; lia].
Qed.

Lemma joined_length (ts : list string) :
  Forall (fun t => In t ws) ts -> length ts <= String.length (joined ts).
Proof.
  induction 1 as [|t ts Ht _ IH]; simpl; [lia|].
  rewrite length_append.
  destruct t; [contradiction | simpl; lia].
Qed.

End Stripping.

Lemma whiteSpace_nonempty : ~ In EmptyString whiteSpace.
Proof.
  intro H.
  assert (G : forallb (fun w => negb (String.eqb w EmptyString)) whiteSpace
              = true) by reflexivity.
  rewrite forallb_forall in G. specialize (G _ H). discriminate G.
Qed.

Lemma whiteSpace_prefix_free (w t : string) :
  In w whiteSpace -> In t whiteSpace -> startsWith w t = true -> w = t.
Proof.
  intros Hw Ht Hst.
  assert (G : forallb
                (fun a =>
                   forallb
                     (fun b => implb (startsWith a b) (String.eqb a b))
                     whiteSpace)
                whiteSpace = true) by (vm_compute; reflexivity).
  rewrite forallb_forall in G. specialize (G _ Hw).
  rewrite forallb_forall in G. specialize (G _ Ht).
  rewrite Hst in G. now apply String.eqb_eq.
Qed.

Section Reversal.

Lemma list_of_append (a b : string) :
  list_ascii_of_string (a ++ b)
  = (list_ascii_of_string a ++ list_ascii_of_string b)%list.
Proof. induction a as [|c a IH]; simpl; [|rewrite IH]; reflexivity. Qed.

Lemma string_of_app (l1 l2 : list ascii) :
  string_of_list_ascii (l1 ++ l2)
  = string_of_list_ascii l1 ++ string_of_list_ascii l2.
Proof. induction l1 as [|c l1 IH]; simpl; [|rewrite IH]; reflexivity. Qed.

Lemma rev_append (a b : string) : rev (a ++ b) = rev b ++ rev a.
Proof.
  unfold rev. now rewrite list_of_append, rev_app_distr, string_of_app.
Qed.

Lemma rev_rev (s : string) : rev (rev s) = s.
Proof.
  unfold rev.
  now rewrite list_ascii_of_string_of_list_ascii, rev_involutive,
    string_of_list_ascii_of_string.
Qed.

Lemma rev_joined (ts : list string) :
  rev (joined ts) = joined (map rev (List.rev ts)).
Proof.
  induction ts as [|t ts IH]; [reflexivity|].
  simpl. rewrite rev_append, IH, map_app, joined_app. simpl.
  now rewrite append_empty_r.
Qed.

End Reversal.

(** [trim] leaves nothing exactly of the strings made of white space. *)
Lemma trim_empty_iff_blank (s : string) : trim s = EmptyString <-> blank s.
Proof.
  unfold blank. split.
  - unfold trim, trimEnd. intro H.
    destruct (stripAll_split whiteSpace (String.length s) s)
      as [ts [Hts Hs]].
    fold (trimStart s) in Hs. set (r := trimStart s) in *.
    apply (f_equal rev) in H. rewrite rev_rev in H.
    change (rev EmptyString) with EmptyString in H.
    destruct (stripAll_split (map rev whiteSpace) (String.length r) (rev r))
      as [us [Hus Hr]].
    rewrite H, append_empty_r in Hr.
    apply (f_equal rev) in Hr. rewrite rev_rev, rev_joined in Hr.
    exists (ts ++ map rev (List.rev us))%list. split.
    + apply Forall_app. split; [exact Hts|].
      rewrite Forall_forall in *. intros x Hx.
      apply in_map_iff in Hx. destruct Hx as [u [<- Hu]].
      apply in_rev in Hu. apply Hus in Hu.
      apply in_map_iff in Hu. destruct Hu as [w0 [<- Hw0]].
      now rewrite rev_rev.
    + now rewrite joined_app, <- Hr.
  - intros [ts [Hts ->]]. unfold trim, trimStart.
    rewrite (stripAll_members whiteSpace whiteSpace_prefix_free ts);
      [reflexivity | exact Hts |].
    now apply (joined_length whiteSpace whiteSpace_nonempty).
Qed.

(** X7.  The guard stops a submission exactly when the input is made of
    white-space characters alone (none at all included) and nothing is
    attached, or when the form was rendered loading. *)
Theorem guard_blocks_blank_input (render : AppState) :
  submitBlocked render = true <->
  (blank (input render) /\ attachment render = None)
  \/ isLoading render = true.
Proof.
  unfold submitBlocked.
  rewrite orb_true_iff, andb_true_iff, <- trim_empty_iff_blank.
  assert (Ht : negb (truthy (trim (input render))) = true
               <-> trim (input render) = EmptyString)
    by (destruct (trim (input render)); simpl; split;
        (reflexivity || discriminate)).
  assert (Ha : match attachment render with
               | Some _ => false
               | None => true
               end = true <-> attachment render = None)
    by (destruct (attachment render); split;
        (reflexivity || discriminate)).
  now rewrite Ht, Ha.
Qed.

(** ** Attachments and their object URLs *)

(** X8.  Removing the attachment undoes choosing it: when the URL that
    [createObjectURL] returned is new and not empty, the attachment is gone,
    the file input is emptied and the URL is revoked, so the registry is
    what it was before the file was chosen. *)
Theorem remove_undoes_choice (f : File) (url : string) (p : Page)
  (Hfresh : ~ In url (objectURLs p))
  (Hurl : url <> EmptyString) :
  handleRemoveAttachment (handleFileChange (Some f) url p) =
  {| view := clearFileInput (setAttachment None (view p));
     objectURLs := objectURLs p |}.
Proof.
  unfold handleRemoveAttachment, handleFileChange.
  cbn [view objectURLs attachment setAttachment att_url].
  destruct url as [|c url]; [congruence|]. cbn [truthy].
  unfold revokeObjectURL. rewrite remove_cons, notin_remove by exact Hfresh.
  reflexivity.
Qed.

Section Sessions.

Context {S : Type} (svc : Service S).

(** The page after a submission. *)
Lemma app_after_submit (render : AppState) (now later : Z) (w : World S) :
  app (snd (run svc (handleSubmit render now later) w)) =
  if submitBlocked render then app w
  else afterResponse
         (answerOf (firstReply svc (input render) w)
            (secondReply svc (input render) w))
         later (beforeRequest render now (app w)).
Proof.
  destruct (submitBlocked render) eqn:Hb.
  - unfold handleSubmit. now rewrite Hb.
  - now rewrite (run_handleSubmit svc render now later w Hb).
Qed.

Lemma attachmentURLs_app (ms ns : list Message) :
  attachmentURLs (ms ++ ns) = (attachmentURLs ms ++ attachmentURLs ns)%list.
Proof. apply flat_map_app. Qed.

(** One step keeps what the messages show registered. *)
Lemma step_registered (e : Event) (t : Tab S) :
  allowed e t -> shownRegistered t -> pendingRegistered t ->
  shownRegistered (step svc e t) /\ pendingRegistered (step svc e t).
Proof.
  unfold shownRegistered, pendingRegistered.
  intros Hal Hshown Hpending.
  destruct e as [v | chosen url | | i | | | | inS inM | now later];
    cbn [step onView onPage withApp world registry app view objectURLs].
  - split; assumption.
  - destruct chosen as [f|]; cbn [handleFileChange view objectURLs];
      [|split; assumption].
    cbn [setAttachment messages attachment]. split.
    + now apply incl_tl.
    + intros a Ha. injection Ha as <-. cbn [att_url]. split; [now left|].
      intro Hin. apply Hal. now apply Hshown.
  - cbn [handleRemoveAttachment view objectURLs clearFileInput
         setAttachment messages attachment].
    split; [|discriminate].
    destruct (attachment (app (world t))) as [a|] eqn:Ha; [|assumption].
    destruct (truthy (att_url a)); [|assumption].
    intros u Hu. unfold revokeObjectURL. apply in_in_remove.
    + intros ->. now apply (proj2 (Hpending a eq_refl)).
    + now apply Hshown.
  - destruct (nth_error (searchHistory (app (world t))) i);
      split; assumption.
  - cbn [handleNewChat setIsSidebarOpen clearFileInput setAttachment
         setInput setMessages messages attachment attachmentURLs flat_map].
    split; [apply incl_nil_l | discriminate].
  - split; assumption.
  - split; assumption.
  - unfold handleClickOutside.
    destruct (negb inS && negb inM); split; assumption.
  - rewrite app_after_submit.
    destruct (submitBlocked (app (world t))); [split; assumption|].
    cbn [afterResponse beforeRequest setIsLoading clearFileInput
         setAttachment setInput setSearchHistory setMessages messages
         attachment].
    split; [|discriminate].
    rewrite !attachmentURLs_app.
    cbn [attachmentURLs flat_map userMessage botResponse msg_attachment
         app].
    destruct (attachment (app (world t))) as [a|] eqn:Ha;
      cbn [app]; rewrite ?app_nil_r; [|assumption].
    apply incl_app; [assumption|].
    intros u [<- | []]. now apply (proj1 (Hpending a eq_refl)).
Qed.

End Sessions.

Section Steps.

Context {S : Type} (svc : Service S).

Lemma step_urlsRegistered (e : Event) (t : Tab S) :
  allowed e t ->
  urlsRegistered (app (world t)) (registry t) ->
  urlsRegistered (app (world (step svc e t))) (registry (step svc e t)).
Proof.
  intros Hal [H1 H2]. exact (step_registered svc e t Hal H1 H2).
Qed.

Lemma step_urlKept (u : string) (e : Event) (t : Tab S) :
  allowed e t ->
  urlKept u (app (world t)) (registry t) ->
  urlKept u (app (world (step svc e t))) (registry (step svc e t)).
Proof.
  unfold urlKept. intros Hal [IH1 IH2].
  destruct e as [v | chosen url | | i | | | | inS inM | now later];
    cbn [step onView onPage withApp world registry app view objectURLs].
  - split; assumption.
  - destruct chosen as [f|]; cbn [handleFileChange view objectURLs];
      [|split; assumption].
    cbn [setAttachment attachment]. split; [now right|].
    intros a Ha. injection Ha as <-. cbn [att_url].
    intros ->. now apply Hal.
  - cbn [handleRemoveAttachment view objectURLs clearFileInput
         setAttachment attachment].
    split; [|discriminate].
    destruct (attachment (app (world t))) as [a|] eqn:Ha; [|assumption].
    destruct (truthy (att_url a)); [|assumption].
    unfold revokeObjectURL. apply in_in_remove; [|assumption].
    intro Hu. now apply (IH2 a eq_refl).
  - destruct (nth_error (searchHistory (app (world t))) i);
      split; assumption.
  - cbn [handleNewChat setIsSidebarOpen clearFileInput setAttachment
         attachment].
    split; [assumption | discriminate].
  - split; assumption.
  - split; assumption.
  - unfold handleClickOutside.
    destruct (negb inS && negb inM); split; assumption.
  - rewrite app_after_submit.
    destruct (submitBlocked (app (world t))); [split; assumption|].
    cbn [afterResponse beforeRequest setIsLoading clearFileInput
         setAttachment setInput setSearchHistory setMessages attachment].
    split; [assumption | discriminate].
Qed.

Lemma step_recorded (e : Event) (t : Tab S) :
  recorded (app (world t)) -> recorded (app (world (step svc e t))).
Proof.
  unfold recorded. intro IH.
  destruct e as [v | chosen url | | i | | | | inS inM | now later];
    cbn [step onView onPage withApp world registry app view objectURLs];
    try exact IH.
  - destruct chosen; exact IH.
  - destruct (nth_error (searchHistory (app (world t))) i); exact IH.
  - intros m [].
  - unfold handleClickOutside. destruct (negb inS && negb inM); exact IH.
  - rewrite app_after_submit.
    destruct (submitBlocked (app (world t))); [exact IH|].
    cbn [afterResponse beforeRequest setIsLoading clearFileInput
         setAttachment setInput setSearchHistory setMessages messages
         searchHistory].
    intros m Hm Hu. rewrite <- app_assoc in Hm.
    apply in_app_or in Hm. destruct Hm as [Hm | [<- | [<- | []]]].
    + destruct (IH m Hm Hu) as [ts [Hts Hin]].
      exists ts. split; [exact Hts | now right].
    + exists now. split; [reflexivity | now left].
    + discriminate Hu.
Qed.


End Steps.

(** ** What the updates of a function keep *)

Section Updates.

Context {A : Type} (P : (AppState -> AppState) -> Prop).

Lemma everyUpdate_bind {B : Type} (m : Async A) (f : A -> Async B) :
  everyUpdate P m -> (forall a, everyUpdate P (f a)) ->
  everyUpdate P (bind m f).
Proof.
  intros Hm Hf.
  induction m as [a | e | req k IH | args k IH | g k IH];
    cbn [bind everyUpdate] in *; auto.
  destruct Hm. auto.
Qed.

Lemma everyUpdate_try_catch (m : Async A) (h : JsError -> Async A) :
  everyUpdate P m -> (forall e, everyUpdate P (h e)) ->
  everyUpdate P (try_catch m h).
Proof.
  intros Hm Hh.
  induction m as [a | e | req k IH | args k IH | g k IH];
    cbn [try_catch everyUpdate] in *; auto.
  destruct Hm. auto.
Qed.

End Updates.

Lemma everyUpdate_try_finally {A : Type}
  (P : (AppState -> AppState) -> Prop) (m : Async A) (f : Async unit) :
  everyUpdate P m -> everyUpdate P f -> everyUpdate P (try_finally m f).
Proof.
  intros Hm Hf.
  induction m as [a | e | req k IH | args k IH | g k IH];
    cbn [try_finally everyUpdate] in *; auto.
  - apply everyUpdate_bind; [exact Hf | intros; exact I].
  - apply everyUpdate_bind; [exact Hf | intros; exact I].
  - destruct Hm. auto.
Qed.

(** [getGeminiResponse] updates nothing. *)
Lemma everyUpdate_getGeminiResponse (P : (AppState -> AppState) -> Prop)
  (q : string) :
  everyUpdate P (getGeminiResponse q).
Proof.
  unfold getGeminiResponse.
  apply everyUpdate_try_catch; [|intro e; exact I].
  cbn [generateContent bind everyUpdate]. intros [e | [[e | t]]];
    cbn [bind text response_text everyUpdate]; try exact I.
  destruct (negb (isCyberSecurityRelated t)); [exact I|].
  cbn [generateContent bind everyUpdate]. intros [e | [[e | a]]];
    cbn [bind text response_text everyUpdate]; exact I.
Qed.

(** [handleSubmit], when it passes the guard, is lines 139-149 followed by
    the [try] statement. *)
Lemma handleSubmit_unfold (render : AppState) (now later : Z) :
  submitBlocked render = false ->
  handleSubmit render now later =
  SetState (setMessages (fun prev => (prev ++ [userMessage render now])%list))
    (SetState
       (setSearchHistory (fun prev =>
          {| question := input render; timestamp := now |} :: prev))
       (SetState (setInput EmptyString)
          (SetState (setAttachment None)
             (SetState clearFileInput
                (SetState (setIsLoading true)
                   (awaitAnswer (input render) later)))))).
Proof. intro Hgo. unfold handleSubmit. rewrite Hgo. reflexivity. Qed.

(** ** Sessions with requests in flight *)

Section LiveSessions.

Context {S : Type} (svc : Service S).
Variable J : AppState -> list string -> Prop.

Hypothesis J_step : forall (e : Event) (t : Tab S),
  allowed e t ->
  J (app (world t)) (registry t) ->
  J (app (world (step svc e t))) (registry (step svc e t)).
Hypothesis J_submit : forall a reg now,
  J a reg -> J (beforeRequest a now a) reg.
Hypothesis J_bot : forall content later,
  keeps J (setMessages (fun prev =>
    (prev ++ [botResponse content later])%list)).
Hypothesis J_error : forall later,
  keeps J (setMessages (fun prev => (prev ++ [errorMessage later])%list)).
Hypothesis J_idle : keeps J (setIsLoading false).

Lemma everyUpdate_awaitAnswer (q : string) (later : Z) :
  everyUpdate (keeps J) (awaitAnswer q later).
Proof.
  unfold awaitAnswer. apply everyUpdate_try_finally.
  - apply everyUpdate_try_catch.
    + apply everyUpdate_bind; [apply everyUpdate_getGeminiResponse|].
      intro response. split; [apply J_bot | exact I].
    + intro e. cbn. split; [apply J_error | exact I].
  - split; [exact J_idle | exact I].
Qed.

Lemma advance_holds (m : Async unit) (l : Live S) :
  everyUpdate (keeps J) m -> holds J l -> holds J (advance m l).
Proof.
  revert l; induction m as [a | e | req k IH | args k IH | g k IH];
    intros l Hm [HJ Hp]; cbn [advance everyUpdate] in *.
  - split; assumption.
  - split; assumption.
  - split; [exact HJ|]. cbn [pending].
    apply Forall_app. split; [exact Hp|]. constructor; [exact Hm | constructor].
  - apply IH; [exact Hm|]. split; assumption.
  - destruct Hm as [Hg Hk]. apply IH; [exact Hk|].
    split; [|exact Hp]. cbn. now apply Hg.
Qed.

Lemma without_Forall {A : Type} (Q : A -> Prop) (i : nat) (l : list A) :
  Forall Q l -> Forall Q (without i l).
Proof.
  intro H. unfold without. apply Forall_app. split.
  - revert i; induction H as [|x l Hx _ IH]; intros [|i]; simpl;
      constructor; auto.
  - generalize (Datatypes.S i) as n.
    induction H as [|x l Hx Hl IH]; intros [|n]; simpl; auto.
Qed.

Lemma liveStep_holds (ev : LiveEvent) (l : Live S) :
  liveAllowed ev l -> holds J l -> holds J (liveStep svc ev l).
Proof.
  intros Hal [HJ Hp].
  destruct ev as [e | i]; cbn [liveStep liveAllowed] in *.
  - assert (Hother : holds J {| tab := step svc e (tab l);
                                pending := pending l |})
      by (split; [now apply J_step | exact Hp]).
    destruct e; try exact Hother.
    destruct (submitBlocked (app (world (tab l)))) eqn:Hb.
    + unfold handleSubmit. rewrite Hb. split; assumption.
    + rewrite (handleSubmit_unfold _ _ _ Hb). cbn [advance].
      apply advance_holds; [apply everyUpdate_awaitAnswer|].
      split; [|exact Hp].
      exact (J_submit (app (world (tab l))) (registry (tab l)) now HJ).
  - destruct (nth_error (pending l) i) as [[req k]|] eqn:Hn;
      [|split; assumption].
    destruct (svc req (remote (world (tab l)))) as [r s'].
    apply advance_holds.
    + apply nth_error_In in Hn. rewrite Forall_forall in Hp.
      exact (Hp _ Hn r).
    + split; [exact HJ|]. cbn [pending]. now apply without_Forall.
Qed.

Lemma liveReach_holds (l0 l : Live S) :
  holds J l0 -> liveReach svc l0 l -> holds J l.
Proof.
  intros H0 Hreach. induction Hreach as [|l ev _ IH Hal]; [exact H0|].
  now apply liveStep_holds.
Qed.

End LiveSessions.

(** A submission that runs to its end is a submission whose calls settle
    before anything else happens. *)
Lemma settled_submission {S : Type} (svc : Service S) (now later : Z)
  (t : Tab S) :
  liveStep svc (CallSettled 0)
    (liveStep svc (CallSettled 0)
       (liveStep svc (User (Submitted now later))
          {| tab := t; pending := [] |}))
  = {| tab := step svc (Submitted now later) t; pending := [] |}.
Proof.
  destruct t as [w reg]. cbn [liveStep step tab world registry].
  destruct (submitBlocked (app w)) eqn:Hb.
  - unfold handleSubmit. rewrite Hb. reflexivity.
  - rewrite (run_handleSubmit svc (app w) now later w Hb).
    cbn [snd]. rewrite calls_after, remote_after, console_after_run.
    unfold answerOf, inDomain, failed, secondState, secondReply, firstState,
      firstReply.
    cbn [remote calls console app].
    rewrite (handleSubmit_unfold _ _ _ Hb).
    unfold awaitAnswer, getGeminiResponse.
    cbn [advance update bind try_catch try_finally generateContent
         withWorld withApp tab world registry pending remote app calls
         console nth_error Datatypes.app without firstn skipn].
    fold (classifyRequest (input (app w))).
    destruct (svc (classifyRequest (input (app w))) (remote w)) as [r1 s1].
    cbn [fst snd].
    destruct r1 as [e | [[e | a]]];
      cbn [replyText response_text text bind try_catch try_finally
           console_error update advance withWorld withApp tab world
           registry pending remote app calls console nth_error without
           firstn skipn orb andb negb liveStep Datatypes.app];
      try (rewrite ?app_nil_r; reflexivity).
    destruct (isCyberSecurityRelated a);
      cbn [negb bind try_catch try_finally generateContent update advance
           withWorld withApp tab world registry pending remote app calls
           console nth_error without firstn skipn orb andb liveStep
           Datatypes.app];
      [|rewrite ?app_nil_r; reflexivity].
    fold (answerRequest (input (app w))).
    destruct (svc (answerRequest (input (app w))) s1) as [r2 s2].
    cbn [fst snd].
    destruct r2 as [e | [[e | a2]]];
      cbn [replyText response_text text bind try_catch try_finally
           console_error update advance withWorld withApp tab world
           registry pending remote app calls console nth_error without
           firstn skipn Datatypes.app];
      rewrite <- ?app_assoc, ?app_nil_r; reflexivity.
Qed.

(** So the live tabs include the tabs of the sessions in which every
    submission runs to its end. *)
Lemma reach_liveReach {S : Type} (svc : Service S) (t0 t : Tab S) :
  reach svc t0 t ->
  liveReach svc {| tab := t0; pending := [] |} {| tab := t; pending := [] |}.
Proof.
  induction 1 as [|t e _ IH Hal]; [apply liveReach_start|].
  assert (Hone : liveReach svc {| tab := t0; pending := [] |}
                   (liveStep svc (User e) {| tab := t; pending := [] |}))
    by (apply liveReach_step; assumption).
  destruct e; try exact Hone.
  rewrite <- settled_submission.
  apply liveReach_step; [|exact I]. apply liveReach_step; [|exact I].
  exact Hone.
Qed.

Section Kept.

Lemma urlsRegistered_submit (a : AppState) (reg : list string) (now : Z) :
  urlsRegistered a reg -> urlsRegistered (beforeRequest a now a) reg.
Proof.
  intros [H1 H2]. split; [|discriminate].
  cbn [beforeRequest setIsLoading clearFileInput setAttachment setInput
       setSearchHistory setMessages messages].
  rewrite attachmentURLs_app. apply incl_app; [exact H1|].
  cbn [attachmentURLs flat_map userMessage msg_attachment].
  destruct (attachment a) as [att|] eqn:Ha; [|apply incl_nil_l].
  intros u [<- | []]. exact (proj1 (H2 att eq_refl)).
Qed.

Lemma urlsRegistered_message (m : Message) :
  msg_attachment m = None ->
  keeps urlsRegistered (setMessages (fun prev => (prev ++ [m])%list)).
Proof.
  intros Hm a reg [H1 H2].
  unfold urlsRegistered. cbn [setMessages messages attachment].
  rewrite attachmentURLs_app. cbn [attachmentURLs flat_map].
  rewrite Hm. cbn [app]. rewrite app_nil_r. split; assumption.
Qed.

Lemma recorded_submit (a : AppState) (now : Z) :
  recorded a -> recorded (beforeRequest a now a).
Proof.
  unfold recorded. intro IH.
  cbn [beforeRequest setIsLoading clearFileInput setAttachment setInput
       setSearchHistory setMessages messages searchHistory].
  intros m Hm Hu. apply in_app_or in Hm. destruct Hm as [Hm | [<- | []]].
  - destruct (IH m Hm Hu) as [ts [Hts Hin]].
    exists ts. split; [exact Hts | now right].
  - exists now. split; [reflexivity | now left].
Qed.

Lemma recorded_message (m : Message) :
  msg_type m = bot ->
  keeps (fun a _ => recorded a)
    (setMessages (fun prev => (prev ++ [m])%list)).
Proof.
  intros Hm a reg IH. unfold recorded in *.
  cbn [setMessages messages searchHistory].
  intros m' Hin Hu. apply in_app_or in Hin. destruct Hin as [Hin | [<- | []]].
  - exact (IH m' Hin Hu).
  - congruence.
Qed.

End Kept.

(** X9.  No message ever shows a revoked attachment.  Take any session of
    events - typing, choosing or removing a file, a click on the history,
    New Chat, the sidebar, submissions, and the settling of their calls, in
    any order, so also while a request is pending - in which
    [createObjectURL] never returns a URL that is still registered.  If it
    starts with no call pending, the shown URLs registered, and the pending
    attachment's URL registered and not shown, then after every event every
    object URL of an attachment in the messages is registered. *)
Theorem shown_attachments_stay_registered {S : Type} (svc : Service S)
  (l0 l : Live S)
  (Hquiet : pending l0 = [])
  (Hshown : shownRegistered (tab l0))
  (Hpending : pendingRegistered (tab l0))
  (Hreach : liveReach svc l0 l) :
  forall m a,
    In m (messages (app (world (tab l)))) -> msg_attachment m = Some a ->
    In (att_url a) (registry (tab l)).
Proof.
  assert (H : holds urlsRegistered l).
  { apply (liveReach_holds svc urlsRegistered) with (l0 := l0);
      [ | | | | | | exact Hreach].
    - apply step_urlsRegistered.
    - apply urlsRegistered_submit.
    - intros content later. now apply urlsRegistered_message.
    - intro later. now apply urlsRegistered_message.
    - intros a reg Ha. exact Ha.
    - split; [split; assumption | rewrite Hquiet; constructor]. }
  destruct H as [[H _] _]. intros m a Hm Ha. apply H.
  unfold attachmentURLs. apply in_flat_map. exists m. split; [exact Hm|].
  rewrite Ha. now left.
Qed.

(** X10.  Only the pending attachment's URL is ever revoked.  In any such
    session - events in any order, also while a request is pending, with
    [createObjectURL] never returning a URL that is still registered, and
    no call pending at the start - a registered URL that is not the pending
    attachment's stays registered after every event.  So the URL of an
    attachment that was replaced by another file, or dropped by New Chat,
    is never released. *)
Theorem other_urls_are_never_revoked {S : Type} (svc : Service S)
  (l0 l : Live S) (u : string)
  (Hquiet : pending l0 = [])
  (Hin : In u (registry (tab l0)))
  (Hother : forall a,
      attachment (app (world (tab l0))) = Some a -> att_url a <> u)
  (Hreach : liveReach svc l0 l) :
  In u (registry (tab l)).
Proof.
  assert (H : holds (urlKept u) l).
  { apply (liveReach_holds svc (urlKept u)) with (l0 := l0);
      [ | | | | | | exact Hreach].
    - apply step_urlKept.
    - intros a reg now [H1 _]. split; [exact H1 | discriminate].
    - intros content later a reg Ha. exact Ha.
    - intros later a reg Ha. exact Ha.
    - intros a reg Ha. exact Ha.
    - split; [split; assumption | rewrite Hquiet; constructor]. }
  exact (proj1 (proj1 H)).
Qed.

(** X11.  Every question on the page can be found in the history: in any
    session - events in any order, also while a request is pending, no
    call pending at the start - that starts with every message of the user
    recorded, after every event each message of the user has an entry of
    the search history with the same text and the same time.  This holds
    on the loading page too, where the question has just appeared. *)
Theorem user_messages_are_recorded {S : Type} (svc : Service S)
  (l0 l : Live S)
  (Hquiet : pending l0 = [])
  (Hstart : recorded (app (world (tab l0))))
  (Hreach : liveReach svc l0 l) :
  recorded (app (world (tab l))).
Proof.
  assert (H : holds (fun a _ => recorded a) l).
  { apply (liveReach_holds svc (fun a _ => recorded a)) with (l0 := l0);
      [ | | | | | | exact Hreach].
    - intros e t _. apply step_recorded.
    - intros a _ now. apply recorded_submit.
    - intros content later. now apply recorded_message.
    - intro later. now apply recorded_message.
    - intros a reg Ha. exact Ha.
    - split; [exact Hstart | rewrite Hquiet; constructor]. }
  exact (proj1 H).
Qed.


(** X13.  When every submission runs to its end before the next event,
    a page that starts as a list of question and answer pairs and is not
    loading stays so: the messages alternate between the user and the bot,
    and loading is off after every event, whatever the service replied. *)
Theorem quiet_sessions_keep_pairs {S : Type} (svc : Service S)
  (t0 t : Tab S)
  (Hpairs : paired (messages (app (world t0))))
  (Hidle : isLoading (app (world t0)) = false)
  (Hreach : reach svc t0 t) :
  paired (messages (app (world t)))
  /\ isLoading (app (world t)) = false.
Proof.
  induction Hreach as [|t e _ [IH1 IH2] Hal]; [split; assumption|].
  destruct e as [v | chosen url | | i | | | | inS inM | now later];
    cbn [step onView onPage withApp world registry app view objectURLs];
    try (split; assumption).
  - destruct chosen; split; assumption.
  - destruct (nth_error (searchHistory (app (world t))) i);
      split; assumption.
  - split; [|assumption]. exists []. split; [reflexivity | constructor].
  - unfold handleClickOutside.
    destruct (negb inS && negb inM); split; assumption.
  - rewrite app_after_submit.
    destruct (submitBlocked (app (world t))); [split; assumption|].
    cbn [afterResponse beforeRequest setIsLoading clearFileInput
         setAttachment setInput setSearchHistory setMessages messages
         isLoading].
    split; [|reflexivity].
    destruct IH1 as [exchanges [Hms Hall]].
    eexists (exchanges ++ [(_, _)])%list. split.
    + rewrite flat_map_app, <- Hms, <- app_assoc. reflexivity.
    + apply Forall_app. split; [exact Hall|].
      constructor; [split; reflexivity | constructor].
Qed.


(** ** The further theorems at work *)

Example handlers_on_files :
  attachment (view (handleFileChange (Some photo) "blob:photo" emptyPage))
  = Some {| att_type := image; att_name := "shot.png";
            att_url := "blob:photo" |}
  /\ attachment
       (view (handleFileChange (Some reportDocument) "blob:report" emptyPage))
     = Some {| att_type := file; att_name := "report.pdf";
               att_url := "blob:report" |}
  /\ handleFileChange None "blob:unused" emptyPage = emptyPage.
Proof. repeat split; reflexivity. Qed.

Lemma reach_answeredTab : reach expertStub freshTab answeredTab.
Proof.
  unfold answeredTab.
  repeat (apply reach_step; [|try exact I]); [apply reach_start|].
  intros [].
Qed.

Lemma submission_effects_witness :
  submitBlocked askingVpn = false
  /\ exists response,
       answer offlineStub (input askingVpn) (freshWorld tt askingVpn)
       = Fulfilled response
       /\ app (snd (run offlineStub (handleSubmit askingVpn 10 20)
                      (freshWorld tt askingVpn)))
          = {| input := EmptyString;
               messages :=
                 [ {| msg_type := user; msg_content := vpnQuestion;
                      msg_attachment := None; msg_timestamp := Some 10%Z |};
                   {| msg_type := bot; msg_content := response;
                      msg_attachment := None; msg_timestamp := Some 20%Z |} ];
               isLoading := false;
               attachment := None;
               isSidebarOpen := false;
               fileInputRef := Some EmptyString;
               searchHistory :=
                 [ {| question := vpnQuestion; timestamp := 10 |} ] |}.
Proof.
  split; [reflexivity|].
  exact (submission_effects offlineStub askingVpn 10 20
           (freshWorld tt askingVpn) eq_refl).
Defined.

Lemma attachment_is_not_sent_witness :
  submitBlocked askingVpn = false
  /\ submitBlocked (setAttachment (Some reportFile) askingVpn) = false
  /\ calls (snd (run expertStub
                   (handleSubmit (setAttachment (Some reportFile) askingVpn)
                      10 20)
                   (freshWorld tt askingVpn)))
     = calls (snd (run expertStub (handleSubmit askingVpn 10 20)
                     (freshWorld tt askingVpn))).
Proof.
  split; [reflexivity|]. split; [reflexivity|].
  exact (proj1 (attachment_is_not_sent expertStub askingVpn (Some reportFile)
                  10 20 (freshWorld tt askingVpn) eq_refl eq_refl)).
Defined.

Lemma answer_lands_on_current_page_witness :
  submitBlocked askingVpn = false
  /\ messages
       (app (snd (runDuring expertStub
                    [handleHistoryClick pizzaQuestion; handleNewChat]
                    (handleSubmit askingVpn 10 20)
                    (freshWorld tt askingVpn))))
     = [botResponse "Step 1: ..." 20]
  /\ input
       (app (snd (runDuring expertStub
                    [handleHistoryClick pizzaQuestion; handleNewChat]
                    (handleSubmit askingVpn 10 20)
                    (freshWorld tt askingVpn))))
     = EmptyString.
Proof.
  split; [reflexivity|].
  rewrite (answer_lands_on_current_page expertStub askingVpn 10 20
             (freshWorld tt askingVpn)
             (handleHistoryClick pizzaQuestion) handleNewChat eq_refl).
  split; reflexivity.
Defined.

Lemma new_chat_keeps_pending_answer_witness :
  submitBlocked askingVpn = false
  /\ exists response,
       answer offlineStub (input askingVpn) (freshWorld tt askingVpn)
       = Fulfilled response
       /\ let final :=
            app (snd (runDuring offlineStub [handleNewChat; fun a => a]
                        (handleSubmit askingVpn 10 20)
                        (freshWorld tt askingVpn))) in
          messages final = [botResponse response 20]
          /\ searchHistory final
             = [ {| question := vpnQuestion; timestamp := 10 |} ]
          /\ isLoading final = false.
Proof.
  split; [reflexivity|].
  exact (new_chat_keeps_pending_answer offlineStub askingVpn 10 20
           (freshWorld tt askingVpn) eq_refl).
Defined.

Lemma remove_undoes_choice_witness :
  ~ In "blob:photo" (objectURLs emptyPage)
  /\ "blob:photo" <> EmptyString
  /\ handleRemoveAttachment
       (handleFileChange (Some photo) "blob:photo" emptyPage)
     = {| view := clearFileInput (setAttachment None emptyApp);
          objectURLs := [] |}.
Proof.
  assert (Hfresh : ~ In "blob:photo" (objectURLs emptyPage))
    by (intros []).
  assert (Hurl : "blob:photo" <> EmptyString) by discriminate.
  split; [exact Hfresh|]. split; [exact Hurl|].
  exact (remove_undoes_choice photo "blob:photo" emptyPage Hfresh Hurl).
Defined.

Lemma liveReach_loadingLive : liveReach expertStub liveStart loadingLive.
Proof.
  unfold loadingLive.
  repeat (apply liveReach_step; [|try exact I]); [apply liveReach_start|].
  intros [].
Qed.


Lemma liveReach_clearedLive : liveReach expertStub replacedLive clearedLive.
Proof.
  unfold clearedLive.
  repeat (apply liveReach_step; [|exact I]). apply liveReach_start.
Qed.

Example pages_between_events :
  isLoading (app (world (tab loadingLive))) = true
  /\ map fst (pending loadingLive) = [classifyRequest vpnQuestion]
  /\ messages (app (world (tab interruptedLive)))
     = [botResponse "Step 1: ..." 20]
  /\ isLoading (app (world (tab interruptedLive))) = false
  /\ pending interruptedLive = []
  /\ registry (tab clearedLive) = ["blob:photo"].
Proof. repeat split; reflexivity. Qed.

Lemma shown_attachments_stay_registered_witness :
  pending liveStart = []
  /\ isLoading (app (world (tab loadingLive))) = true
  /\ (exists m a,
         In m (messages (app (world (tab loadingLive))))
         /\ msg_attachment m = Some a /\ att_url a = "blob:photo")
  /\ forall m a,
       In m (messages (app (world (tab loadingLive)))) ->
       msg_attachment m = Some a ->
       In (att_url a) (registry (tab loadingLive)).
Proof.
  split; [reflexivity|]. split; [reflexivity|]. split.
  - eexists. eexists. split; [left; reflexivity|]. split; reflexivity.
  - apply (shown_attachments_stay_registered expertStub liveStart
             loadingLive).
    + reflexivity.
    + intros u [].
    + intros a Ha. discriminate Ha.
    + exact liveReach_loadingLive.
Defined.

Lemma other_urls_are_never_revoked_witness :
  pending replacedLive = []
  /\ In "blob:photo" (registry (tab replacedLive))
  /\ attachment (app (world (tab clearedLive))) = None
  /\ messages (app (world (tab clearedLive))) = []
  /\ In "blob:photo" (registry (tab clearedLive)).
Proof.
  split; [reflexivity|]. split; [right; left; reflexivity|].
  split; [reflexivity|]. split; [reflexivity|].
  apply (other_urls_are_never_revoked expertStub replacedLive clearedLive).
  - reflexivity.
  - right. left. reflexivity.
  - intros a Ha. injection Ha as <-. discriminate.
  - exact liveReach_clearedLive.
Defined.

Lemma user_messages_are_recorded_witness :
  pending liveStart = []
  /\ recorded (app (world (tab liveStart)))
  /\ isLoading (app (world (tab loadingLive))) = true
  /\ recorded (app (world (tab loadingLive))).
Proof.
  assert (Hstart : recorded (app (world (tab liveStart)))) by (intros m []).
  split; [reflexivity|]. split; [exact Hstart|]. split; [reflexivity|].
  exact (user_messages_are_recorded expertStub liveStart loadingLive eq_refl
           Hstart liveReach_loadingLive).
Defined.


Lemma quiet_sessions_keep_pairs_witness :
  paired (messages (app (world freshTab)))
  /\ isLoading (app (world freshTab)) = false
  /\ paired (messages (app (world answeredTab)))
  /\ isLoading (app (world answeredTab)) = false.
Proof.
  assert (Hpairs : paired (messages (app (world freshTab))))
    by (exists []; split; [reflexivity | constructor]).
  split; [exact Hpairs|]. split; [reflexivity|].
  exact (quiet_sessions_keep_pairs expertStub freshTab answeredTab Hpairs
           eq_refl reach_answeredTab).
Defined.

